(** * Face attendance: a shallow embedding of [facedetect/attendance.py]

    Definitions first:
    - [Numpy]: the arithmetic of [cosine_distance], at IEEE binary64, the
      [float64] the program runs on;
    - [Py]: the few Python built-ins the program relies on ([min],
      [list.index], indexing, [str.endswith], [os.path.splitext]) with
      their exceptions;
    - [Attendance]: [load_known_faces], [initialize_attendance],
      [process_frame], [mark_attendance] and [main], over an explicit world
      (files, requests sent, log, device trace, heap of set objects) and a
      script of what the camera, the keyboard, the clock and the network
      do;
    - [Scenario]: a small classroom to run the program in;
    - [Spec]: the vocabulary of the statements.

    Then the properties: the order of binary64 values ([F64]), the matcher
    ([Matcher]), the ledger ([Ledger]), the cosine distance ([Cosine]),
    the gallery loader ([Loader]), frames ([Frames]), the cycle controller
    ([Controller]), and the theorems applied in the classroom
    ([Classroom]). *)

From Stdlib Require Import ZArith List String Ascii Bool Lia.
From Stdlib Require Import Floats.
From stdpp Require Import base option list strings gmap pretty.

Local Open Scope string_scope.

(** ** Python results: a value or a raised exception *)

Inductive exn : Type :=
| ValueError            (* np.dot on mismatched shapes, min([]), list.index miss *)
| IndexError            (* list subscript out of range *)
| KeyboardInterrupt     (* not a subclass of Exception *)
| OtherError (msg : string).

Inductive result (A : Type) : Type :=
| Ok (a : A)
| Raise (e : exn).
Arguments Ok {A} a.
Arguments Raise {A} e.

Definition rbind {A B} (r : result A) (k : A -> result B) : result B :=
  match r with
  | Ok a => k a
  | Raise e => Raise e
  end.

Notation "x <-! r ; k" := (rbind r (fun x => k))
  (at level 100, r at next level, right associativity, only parsing).

(** [except Exception] catches every exception but [KeyboardInterrupt]. *)
Definition is_Exception (e : exn) : bool :=
  match e with
  | KeyboardInterrupt => false
  | _ => true
  end.

(** ** numpy arithmetic *)

Module Numpy.

(** The operations [cosine_distance] uses on its scalars. *)
Record arith (T : Type) : Type := {
  zero : T;
  one : T;
  add : T -> T -> T;
  sub : T -> T -> T;
  mul : T -> T -> T;
  div : T -> T -> T;
  sqrt : T -> T
}.
Arguments zero {T} _.
Arguments one {T} _.
Arguments add {T} _ _ _.
Arguments sub {T} _ _ _.
Arguments mul {T} _ _ _.
Arguments div {T} _ _ _.
Arguments sqrt {T} _ _.

Section Generic.
Context {T : Type} (N : arith T).

(** [np.dot(a, b)] on two one-dimensional arrays: the sum of the
    products.  numpy leaves the order of the additions to its BLAS; the
    model adds from the left, starting at zero.  Shapes that are not
    aligned raise [ValueError]. *)
Fixpoint dot_acc (acc : T) (a b : list T) : T :=
  match a, b with
  | x :: a', y :: b' => dot_acc (add N acc (mul N x y)) a' b'
  | _, _ => acc
  end.

Definition dot (a b : list T) : result T :=
  if Nat.eqb (length a) (length b) then Ok (dot_acc (zero N) a b)
  else Raise ValueError.

(** [np.linalg.norm(a)] for a vector: [sqrt(a.dot(a))]. *)
Definition norm (a : list T) : T := sqrt N (dot_acc (zero N) a a).

(** [cosine_distance(a, b)]:
    [1 - np.dot(a, b) / (np.linalg.norm(a) * np.linalg.norm(b))]. *)
Definition cosine_distance (a b : list T) : result T :=
  d <-! dot a b;
  Ok (sub N (one N) (div N d (mul N (norm a) (norm b)))).

End Generic.

(** IEEE 754 binary64, the [float64] of numpy and the [float] of Python. *)
Definition f64 : arith float := {|
  zero := 0%float;
  one := 1%float;
  add := PrimFloat.add;
  sub := PrimFloat.sub;
  mul := PrimFloat.mul;
  div := PrimFloat.div;
  sqrt := PrimFloat.sqrt
|}.

End Numpy.

(** ** The Python built-ins the program uses *)

Module Py.

(** A float object on the heap: [min] hands back one of the list's own
    objects and [list.index] looks for it by identity first, by [==]
    second, so identity is part of the model. *)
Record obj : Type := { oid : nat; val : float }.

(** A list display or comprehension allocates its elements afresh, one
    object per position. *)
Fixpoint alloc_from (n : nat) (ds : list float) : list obj :=
  match ds with
  | [] => []
  | d :: ds' => {| oid := n; val := d |} :: alloc_from (S n) ds'
  end.

Definition alloc (ds : list float) : list obj := alloc_from 0 ds.

(** A float is a number when it is not a NaN: [x == x] in Python. *)
Definition is_number (x : float) : bool := PrimFloat.eqb x x.

(** [min(xs)]: the first element is kept until a later one compares
    strictly less; an empty argument raises [ValueError]. *)
Fixpoint min_from (best : obj) (xs : list obj) : obj :=
  match xs with
  | [] => best
  | x :: xs' => min_from (if PrimFloat.ltb (val x) (val best) then x else best) xs'
  end.

Definition min (xs : list obj) : result obj :=
  match xs with
  | [] => Raise ValueError
  | x :: xs' => Ok (min_from x xs')
  end.

(** [xs.index(x)]: the first position holding [x] itself or a value equal
    to it; [ValueError] when there is none. *)
Definition same (y x : obj) : bool :=
  Nat.eqb (oid y) (oid x) || PrimFloat.eqb (val y) (val x).

Fixpoint index_from (i : nat) (xs : list obj) (x : obj) : result nat :=
  match xs with
  | [] => Raise ValueError
  | y :: xs' => if same y x then Ok i else index_from (S i) xs' x
  end.

Definition index (xs : list obj) (x : obj) : result nat := index_from 0 xs x.

(** [xs[i]] for a non-negative [i]. *)
Definition getitem {A} (xs : list A) (i : nat) : result A :=
  match xs !! i with
  | Some a => Ok a
  | None => Raise IndexError
  end.

(** [[f(x) for x in xs]]: the first exception ends the comprehension. *)
Fixpoint comprehension {A B} (f : A -> result B) (xs : list A) : result (list B) :=
  match xs with
  | [] => Ok []
  | x :: xs' => y <-! f x; ys <-! comprehension f xs'; Ok (y :: ys)
  end.

(** [s.endswith(suffix)] and its form with a tuple of suffixes. *)
Definition endswith (s suffix : string) : bool :=
  let n := String.length s in
  let k := String.length suffix in
  Nat.leb k n && String.eqb (substring (n - k) k s) suffix.

Definition endswith_any (s : string) (suffixes : list string) : bool :=
  existsb (endswith s) suffixes.

(** [s.rfind(c)] for a one-character [c]: the last position of [c], or -1. *)
Fixpoint rfind_from (i : Z) (found : Z) (c : ascii) (s : string) : Z :=
  match s with
  | EmptyString => found
  | String x s' => rfind_from (i + 1) (if Ascii.eqb x c then i else found) c s'
  end.

Definition rfind (s : string) (c : ascii) : Z := rfind_from 0 (-1) c s.

(** [os.path.splitext(p)] (posixpath): the extension starts at the last
    dot of the last path component, unless only dots precede it there. *)
Definition splitext (p : string) : string * string :=
  let sepIndex := rfind p "/"%char in
  let dotIndex := rfind p "."%char in
  let between :=
    substring (Z.to_nat (sepIndex + 1)) (Z.to_nat (dotIndex - (sepIndex + 1))) p in
  if (sepIndex <? dotIndex)%Z
     && existsb (fun c => negb (Ascii.eqb c "."%char)) (list_ascii_of_string between)
  then (substring 0 (Z.to_nat dotIndex) p,
        substring (Z.to_nat dotIndex) (String.length p - Z.to_nat dotIndex) p)
  else (p, "").

End Py.

(** ** The attendance program *)

Module Attendance.
Import Numpy Py.

(** *** Configuration (lines 14-20) *)

Definition DATASET_PATH : string := "backend/uploads".
(** [0.4]: the binary64 value nearest to it, written exactly. *)
Definition DISTANCE_THRESHOLD : float := 0x1.999999999999ap-2%float.
Definition ATTENDANCE_URL : string := "http://localhost:5000/api/attendance/mark".

(** *** Data *)

Definition embedding : Type := list float.

Record rect : Type := { rx : Z; ry : Z; rw : Z; rh : Z }.

(** One element of what [DeepFace.represent] returns. *)
Record face : Type := { face_embedding : embedding; facial_area : rect }.

(** An entry of the dataset directory, with what the model answers on it. *)
Record image_file : Type := {
  filename : string;
  enrolled : result (list face)
}.

(** A camera frame, as far as the program looks at it: whether resizing
    and colour conversion go through, and what the model answers. *)
Record frame : Type := {
  preprocessed : result unit;
  represented : result (list face)
}.

(** The keyword arguments of [requests.post] (line 169); [timeout] is the
    library's parameter of that name, [None] unless the caller passes it. *)
Record post_request : Type := {
  url : string;
  json_rollNumber : string;
  json_date : string;
  json_time : string;
  json_status : string;
  json_classPeriod : Z;
  timeout : option float
}.

(** What the remote end does with a request. *)
Inductive reply : Type :=
| Response (status_code : Z) (text : string)
| Failure (msg : string)     (* connection refused, reset, ... *)
| Silence.                   (* the connection stays open, no answer comes *)

Inductive level : Type := INFO | WARNING | ERROR.

(** What the program does to the capture device, the display and the
    clock, in order. *)
Inductive event : Type :=
| Cycle (cycle_count class_period : Z)     (* one turn of the outer loop *)
| CapOpen (ok : bool)                      (* cv2.VideoCapture + isOpened *)
| CapRelease                               (* cap.release() *)
| Sleep (seconds : Z)                      (* time.sleep *)
| Drawn (left top right bottom : Z) (label : string).

(** The world the program acts on.  [heap] holds the [set] objects:
    [attendance_set] is a reference into it, shared by [main],
    [process_frame] and [mark_attendance]. *)
Record world : Type := {
  files : gmap string (list (list string));
  posts : list post_request;
  log : list (level * string);
  trace : list event;
  heap : gmap nat (gset string)
}.

Definition empty_world : world :=
  {| files := ∅; posts := []; log := []; trace := []; heap := ∅ |}.

(** What the surroundings answer: the directory listing, the date, the
    wall clock at the k-th mark of the run and the remote end's reaction
    to the k-th request. *)
Record env : Type := {
  listdir : string -> option (list image_file);
  today : string;
  time_str_at : nat -> string;
  remote : nat -> post_request -> reply
}.

(** *** Effects *)

Inductive outcome (A : Type) : Type :=
| Returns (a : A)
| Raises (e : exn)
| Blocks          (* a call that never returns *)
| Unfinished.     (* the script ended while the program was still running *)
Arguments Returns {A} a.
Arguments Raises {A} e.
Arguments Blocks {A}.
Arguments Unfinished {A}.

Definition M (A : Type) : Type := world -> outcome A * world.

Definition ret {A} (a : A) : M A := fun w => (Returns a, w).
Definition raise {A} (e : exn) : M A := fun w => (Raises e, w).
Definition unfinished {A} : M A := fun w => (Unfinished, w).

Definition bind {A B} (m : M A) (k : A -> M B) : M B :=
  fun w =>
    match m w with
    | (Returns a, w') => k a w'
    | (Raises e, w') => (Raises e, w')
    | (Blocks, w') => (Blocks, w')
    | (Unfinished, w') => (Unfinished, w')
    end.

Notation "'let*' x := m 'in' k" := (bind m (fun x => k))
  (at level 10, x pattern, m at level 100, k at level 200, only parsing).
Notation "m ;; k" := (bind m (fun _ => k))
  (at level 100, k at level 200, right associativity, only parsing).

Definition lift {A} (r : result A) : M A :=
  match r with
  | Ok a => ret a
  | Raise e => raise e
  end.

(** [try: m  except Exception as e: h e] *)
Definition try_except {A} (m : M A) (h : exn -> M A) : M A :=
  fun w =>
    match m w with
    | (Raises e, w') => if is_Exception e then h e w' else (Raises e, w')
    | r => r
    end.

(** [try: m  except KeyboardInterrupt: h] *)
Definition try_except_interrupt {A} (m : M A) (h : M A) : M A :=
  fun w =>
    match m w with
    | (Raises KeyboardInterrupt, w') => h w'
    | r => r
    end.

(** [try: m  finally: f]: [f] runs when [m] returns and when it raises,
    and the result or the exception of [m] is kept. *)
Definition try_finally {A} (m : M A) (f : M unit) : M A :=
  fun w =>
    match m w with
    | (Returns a, w') => (f ;; ret a) w'
    | (Raises e, w') => (f ;; raise e) w'
    | r => r
    end.

Definition logging (l : level) (msg : string) : M unit :=
  fun w => (Returns tt,
            {| files := files w; posts := posts w; log := (log w ++ [(l, msg)])%list;
               trace := trace w; heap := heap w |}).

Definition emit (e : event) : M unit :=
  fun w => (Returns tt,
            {| files := files w; posts := posts w; log := log w;
               trace := (trace w ++ [e])%list; heap := heap w |}).

Definition str (e : exn) : string :=
  match e with
  | ValueError => "ValueError"
  | IndexError => "list index out of range"
  | KeyboardInterrupt => ""
  | OtherError msg => msg
  end.

(** [set()]: a fresh empty set object. *)
Definition new_set : M nat :=
  fun w =>
    let r := fresh (dom (heap w)) in
    (Returns r,
     {| files := files w; posts := posts w; log := log w; trace := trace w;
        heap := <[r := ∅]> (heap w) |}).

Definition contents (w : world) (r : nat) : gset string :=
  default ∅ (heap w !! r).

(** [x in s] *)
Definition set_mem (x : string) (r : nat) : M bool :=
  fun w => (Returns (bool_decide (x ∈ contents w r)), w).

(** [s.add(x)] *)
Definition set_add (r : nat) (x : string) : M unit :=
  fun w => (Returns tt,
            {| files := files w; posts := posts w; log := log w;
               trace := trace w;
               heap := <[r := {[x]} ∪ contents w r]> (heap w) |}).

(** [os.path.exists(path)] for a file of the working directory. *)
Definition path_exists (path : string) : M bool :=
  fun w => (Returns (bool_decide (is_Some (files w !! path))), w).

(** [open(path, "w")] then one [writerow]. *)
Definition write_file (path : string) (row : list string) : M unit :=
  fun w => (Returns tt,
            {| files := <[path := [row]]> (files w); posts := posts w;
               log := log w; trace := trace w; heap := heap w |}).

(** [open(path, "a")] then one [writerow]: the file is created when it
    is missing. *)
Definition append_file (path : string) (row : list string) : M unit :=
  fun w => (Returns tt,
            {| files := <[path := (default [] (files w !! path) ++ [row])%list]> (files w);
               posts := posts w; log := log w; trace := trace w;
               heap := heap w |}).

(** [datetime.now().strftime("%H:%M:%S")] *)
Definition now_time_str (E : env) : M string :=
  fun w => (Returns (time_str_at E (length (posts w))), w).

(** [requests.post]: the request goes out; an answer comes back as a
    response, a transport failure as an exception.  When no answer
    comes, the call ends with a timeout exception if a timeout was
    passed, and does not end otherwise. *)
Definition requests_post (E : env) (req : post_request) : M (Z * string) :=
  fun w =>
    let w' := {| files := files w; posts := (posts w ++ [req])%list; log := log w;
                 trace := trace w; heap := heap w |} in
    match remote E (length (posts w)) req with
    | Response code text => (Returns (code, text), w')
    | Failure msg => (Raises (OtherError msg), w')
    | Silence =>
        match timeout req with
        | Some _ => (Raises (OtherError "Timeout"), w')
        | None => (Blocks, w')
        end
    end.

(** *** [load_known_faces] (lines 35-67) *)

Definition image_suffixes : list string := [".jpg"; ".png"; ".jpeg"].

(** The body of the [for] loop, for one directory entry: the two lists
    grow together, by one element each, or not at all. *)
Definition load_file (f : image_file)
    (known_faces : list embedding) (student_names : list string)
  : M (list embedding * list string) :=
  if endswith_any (filename f) image_suffixes then
    try_except
      (let* result := lift (enrolled f) in
       match result with
       | r :: _ =>
           let known_faces := (known_faces ++ [face_embedding r])%list in
           let student_names := (student_names ++ [fst (splitext (filename f))])%list in
           logging INFO ("Loaded face for " ++ fst (splitext (filename f))) ;;
           ret (known_faces, student_names)
       | [] =>
           logging WARNING ("No face detected in " ++ filename f) ;;
           ret (known_faces, student_names)
       end)
      (fun e =>
         logging ERROR ("Error processing " ++ filename f ++ ": " ++ str e) ;;
         ret (known_faces, student_names))
  else ret (known_faces, student_names).

Fixpoint load_files (fs : list image_file)
    (known_faces : list embedding) (student_names : list string)
  : M (list embedding * list string) :=
  match fs with
  | [] => ret (known_faces, student_names)
  | f :: fs' =>
      let* (known_faces, student_names) := load_file f known_faces student_names in
      load_files fs' known_faces student_names
  end.

Definition load_known_faces (E : env) (dataset_path : string)
  : M (list embedding * list string) :=
  let known_faces := [] in
  let student_names := [] in
  match listdir E dataset_path with
  | None =>
      logging ERROR ("Dataset path " ++ dataset_path ++ " does not exist") ;;
      ret (known_faces, student_names)
  | Some fs =>
      let* (known_faces, student_names) := load_files fs known_faces student_names in
      logging INFO ("Loaded " ++ pretty (length student_names) ++ " students from dataset") ;;
      ret (known_faces, student_names)
  end.

(** *** [initialize_attendance] (lines 69-87) *)

Definition csv_header : list string :=
  ["Name"; "Date"; "Time"; "Status"; "Class Period"].

Definition initialize_attendance (date_today : string) : M string :=
  let attendance_file := "attendance_" ++ date_today ++ ".csv" in
  let* present := path_exists attendance_file in
  (if present then ret tt
   else write_file attendance_file csv_header ;;
        logging INFO ("Created new attendance file: " ++ attendance_file)) ;;
  ret attendance_file.

(** *** [mark_attendance] (lines 146-181) *)

Definition attendance_request (rollNumber date_today time_str : string)
    (classPeriod : Z) : post_request :=
  {| url := ATTENDANCE_URL;
     json_rollNumber := rollNumber;
     json_date := date_today;
     json_time := time_str;
     json_status := "present";
     json_classPeriod := classPeriod;
     timeout := None |}.

Definition csv_row (rollNumber date_today time_str : string) (classPeriod : Z)
  : list string :=
  [rollNumber; date_today; time_str; "Present"; "Class " ++ pretty classPeriod].

Definition mark_attendance (E : env) (rollNumber date_today attendance_file : string)
    (attendance_set : nat) (classPeriod : Z) : M unit :=
  let* marked := set_mem rollNumber attendance_set in
  if negb marked then
    let* time_str := now_time_str E in
    append_file attendance_file (csv_row rollNumber date_today time_str classPeriod) ;;
    set_add attendance_set rollNumber ;;
    logging INFO ("Marked " ++ rollNumber ++ " as Present in Class "
                  ++ pretty classPeriod ++ " at " ++ time_str) ;;
    try_except
      (let* (status_code, text) :=
         requests_post E (attendance_request rollNumber date_today time_str classPeriod) in
       if (status_code =? 200)%Z then
         logging INFO ("Sent attendance for " ++ rollNumber ++ " (Class "
                       ++ pretty classPeriod ++ ") to backend")
       else
         logging WARNING ("Failed to send attendance for " ++ rollNumber ++ " (Class "
                          ++ pretty classPeriod ++ "): " ++ text))
      (fun e => logging ERROR ("Error sending attendance to backend: " ++ str e))
  else ret tt.

(** *** [process_frame] (lines 89-144) *)

(** Lines 122-129: the distances to all known faces, the smallest one,
    its position, and the name the threshold lets through. *)
Definition distances_to (face_encoding : embedding) (known_faces : list embedding)
  : result (list obj) :=
  ds <-! comprehension (cosine_distance f64 face_encoding) known_faces;
  Ok (alloc ds).

Definition match_face (face_encoding : embedding)
    (known_faces : list embedding) (student_names : list string) : result string :=
  distances <-! distances_to face_encoding known_faces;
  min_distance <-! Py.min distances;
  best_match_index <-! Py.index distances min_distance;
  if PrimFloat.ltb (val min_distance) DISTANCE_THRESHOLD
  then getitem student_names best_match_index
  else Ok "Unknown".

(** The body of [for result in results]. *)
Definition process_face (E : env) (result : face)
    (known_faces : list embedding) (student_names : list string)
    (attendance_file : string) (attendance_set : nat)
    (date_today : string) (classPeriod : Z) : M unit :=
  let face_encoding := face_embedding result in
  let area := facial_area result in
  let* name := lift (match_face face_encoding known_faces student_names) in
  (* int(v / FRAME_SCALE_FACTOR) with FRAME_SCALE_FACTOR = 0.5 *)
  emit (Drawn (2 * rx area) (2 * ry area)
              (2 * (rx area + rw area)) (2 * (ry area + rh area)) name) ;;
  if negb (String.eqb name "Unknown")
  then mark_attendance E name date_today attendance_file attendance_set classPeriod
  else ret tt.

Fixpoint process_faces (E : env) (results : list face)
    (known_faces : list embedding) (student_names : list string)
    (attendance_file : string) (attendance_set : nat)
    (date_today : string) (classPeriod : Z) : M unit :=
  match results with
  | [] => ret tt
  | result :: results' =>
      process_face E result known_faces student_names attendance_file
        attendance_set date_today classPeriod ;;
      process_faces E results' known_faces student_names attendance_file
        attendance_set date_today classPeriod
  end.

Definition process_frame (E : env) (fr : frame)
    (known_faces : list embedding) (student_names : list string)
    (attendance_file : string) (attendance_set : nat)
    (date_today : string) (classPeriod : Z) : M unit :=
  lift (preprocessed fr) ;;
  try_except
    (let* results := lift (represented fr) in
     process_faces E results known_faces student_names attendance_file
       attendance_set date_today classPeriod)
    (fun e => logging ERROR ("Error processing frame: " ++ str e)).

(** *** [main] (lines 183-271) *)

(** One turn of [while True] as the surroundings drive it: what
    [cap.read()] gives and, when a frame came, what [cv2.imshow] and
    [cv2.waitKey(1)] give and what [time.time()] reads afterwards. *)
Inductive tick : Type :=
| ReadFailed                       (* ret is False *)
| ReadRaised (e : exn)
| Read (fr : frame) (key : result Z) (clock : float).

(** One turn of the outer loop: whether the capture opens, the clock at
    [start_time], and the turns of the inner loop. *)
Record attempt : Type := {
  opened : bool;
  start_time : float;
  ticks : list tick
}.

(** How the inner loop is left without an exception. *)
Inductive loop_exit : Type :=
| Break       (* frame-read failure or the minute is over *)
| Return.     (* the q key, or Ctrl-C once handled *)

Definition ord_q : Z := 113.

Fixpoint active (E : env) (ts : list tick) (start : float)
    (known_faces : list embedding) (student_names : list string)
    (attendance_file : string) (attendance_set : nat)
    (date_today : string) (class_period : Z) : M loop_exit :=
  match ts with
  | [] => unfinished
  | ReadFailed :: _ =>
      logging ERROR "Unable to read frame from camera" ;;
      ret Break
  | ReadRaised e :: _ => raise e
  | Read fr key clock :: ts' =>
      process_frame E fr known_faces student_names attendance_file
        attendance_set date_today class_period ;;
      let* k := lift key in
      if (Z.land k 255 =? ord_q)%Z then ret Return
      else if PrimFloat.ltb 60 (PrimFloat.sub clock start) then ret Break
      else active E ts' start known_faces student_names attendance_file
             attendance_set date_today class_period
  end.

(** Lines 227-249: the [try] statement around the inner loop.  Ctrl-C is
    answered by a [return]; [cap.release()] is in the [finally] clause. *)
Definition capture_loop (E : env) (a : attempt)
    (known_faces : list embedding) (student_names : list string)
    (attendance_file : string) (attendance_set : nat)
    (date_today : string) (class_period : Z) : M loop_exit :=
  try_finally
    (try_except_interrupt
       (active E (ticks a) (start_time a) known_faces student_names
          attendance_file attendance_set date_today class_period)
       (logging INFO "Interrupted by user" ;; ret Return))
    (emit CapRelease).

(** [while class_period <= 6] *)
Fixpoint cycles (E : env) (script : list attempt)
    (known_faces : list embedding) (student_names : list string)
    (attendance_file date_today : string)
    (class_period cycle_count : Z) : M unit :=
  if (class_period <=? 6)%Z then
    match script with
    | [] => unfinished
    | a :: script' =>
        let cycle_count := (cycle_count + 1)%Z in
        logging INFO ("Starting cycle " ++ pretty cycle_count
                      ++ " - Class Period " ++ pretty class_period) ;;
        emit (Cycle cycle_count class_period) ;;
        let* attendance_set := new_set in
        emit (CapOpen (opened a)) ;;
        if negb (opened a) then
          logging ERROR "Unable to access camera feed" ;;
          emit (Sleep 60) ;;
          cycles E script' known_faces student_names attendance_file date_today
            class_period cycle_count
        else
          logging INFO "Running attendance for 1 minute." ;;
          let* how :=
            capture_loop E a known_faces student_names attendance_file
              attendance_set date_today class_period in
          match how with
          | Return => ret tt
          | Break =>
              logging INFO ("Completed Class Period " ++ pretty class_period
                            ++ " attendance cycle " ++ pretty cycle_count) ;;
              logging INFO "Attendance data has been automatically saved and sent to backend." ;;
              logging INFO "System stopped for 1 minute break..." ;;
              emit (Sleep 10) ;;
              let class_period := (class_period + 1)%Z in
              (if (class_period <=? 6)%Z
               then logging INFO ("Restarting with Class Period " ++ pretty class_period)
               else logging INFO "Completed all 6 class periods. System will now close.") ;;
              cycles E script' known_faces student_names attendance_file date_today
                class_period cycle_count
          end
    end
  else ret tt.

Definition main (E : env) (script : list attempt) : M unit :=
  let* (known_faces, student_names) := load_known_faces E DATASET_PATH in
  match known_faces with
  | [] => logging ERROR "No known faces loaded. Exiting."
  | _ :: _ =>
      let date_today := today E in
      let* attendance_file := initialize_attendance date_today in
      let class_period := 1%Z in
      let cycle_count := 0%Z in
      logging INFO "Starting continuous face attendance system with automatic restart." ;;
      logging INFO "System will cycle through Class Periods 1 to 6." ;;
      logging INFO "Each cycle: 1 minute active, 1 minute sleep, then automatic restart." ;;
      logging INFO "System will automatically close after completing all 6 class periods." ;;
      logging INFO "Press 'q' to quit." ;;
      try_finally
        (try_except
           (cycles E script known_faces student_names attendance_file date_today
              class_period cycle_count)
           (fun e => logging ERROR ("Error in main loop: " ++ str e)))
        (logging INFO "Face attendance system stopped." ;;
         logging INFO "All class periods (1-6) have been completed.")
  end.

End Attendance.

(** ** A classroom to run the program in *)

Module Scenario.
Import Attendance.

Definition alice_face : embedding := [1%float; 0%float].
Definition bob_face : embedding := [0%float; 1%float].

Definition known_faces : list embedding := [bob_face; alice_face].
Definition student_names : list string := ["bob"; "alice"].

Definition portrait (e : embedding) : list face :=
  [{| face_embedding := e; facial_area := {| rx := 10; ry := 20; rw := 30; rh := 40 |} |}].

(** Two portraits and a text file under [DATASET_PATH], nothing elsewhere. *)
Definition dataset : list image_file :=
  [{| filename := "bob.png"; enrolled := Ok (portrait bob_face) |};
   {| filename := "notes.txt"; enrolled := Raise (OtherError "not an image") |};
   {| filename := "alice.jpg"; enrolled := Ok (portrait alice_face) |}].

Definition classroom (r : reply) : env :=
  {| listdir := fun path => if String.eqb path DATASET_PATH then Some dataset else None;
     today := "2024-01-01";
     time_str_at := fun _ => "09:00:00";
     remote := fun _ _ => r |}.

(** The remote end accepts, refuses, or says nothing. *)
Definition accepting : env := classroom (Response 200 "ok").
Definition refusing : env := classroom (Response 500 "Internal Server Error").
Definition silent : env := classroom Silence.

(** No dataset directory at all. *)
Definition nowhere : env :=
  {| listdir := fun _ => None;
     today := "2024-01-01";
     time_str_at := fun _ => "09:00:00";
     remote := fun _ _ => Response 200 "ok" |}.

Definition alice_frame : frame :=
  {| preprocessed := Ok tt; represented := Ok (portrait alice_face) |}.

(** The capture opens at second 0; alice is seen at second 1 and again
    at second 61, no key is pressed. *)
Definition period_with_alice : attempt :=
  {| opened := true;
     start_time := 0%float;
     ticks := [Read alice_frame (Ok (-1)%Z) 1%float;
               Read alice_frame (Ok (-1)%Z) 61%float] |}.

(** The capture opens and alice is seen once, when the minute is over. *)
Definition glimpse_of_alice : attempt :=
  {| opened := true;
     start_time := 0%float;
     ticks := [Read alice_frame (Ok (-1)%Z) 61%float] |}.

Definition six_periods : list attempt := replicate 6 period_with_alice.

Definition csv_today : string := "attendance_2024-01-01.csv".

(** A world where the set object 0 already holds alice. *)
Definition alice_marked : world :=
  {| files := ∅; posts := []; log := []; trace := [];
     heap := {[ 0%nat := {[ "alice" ]} ]} |}.

End Scenario.

(** ** The vocabulary of the statements *)

Module Spec.
Import Numpy Py Attendance.

(** A relation between the world before and the world after is kept by
    a computation. *)
Definition preserves (R : relation world) {A} (m : M A) : Prop :=
  forall w, R w (snd (m w)).

(** A binary64 value that is neither a zero, nor an infinity, nor a NaN. *)
Definition finite_nonzero (x : float) : bool :=
  match Prim2SF x with
  | S754_finite _ _ _ => true
  | _ => false
  end.

(** The squared norm as [np.linalg.norm] computes it: [a.dot(a)]. *)
Definition squared_norm (a : embedding) : float :=
  dot_acc f64 (zero f64) a a.

(** [m] is [b] or strictly below it. *)
Definition below (m b : obj) : Prop :=
  m = b \/ PrimFloat.ltb (val m) (val b) = true.

(** Only the log may differ. *)
Definition only_log (w w' : world) : Prop :=
  files w' = files w /\ posts w' = posts w /\ trace w' = trace w /\ heap w' = heap w.

Definition is_drawn (e : event) : bool :=
  match e with
  | Drawn _ _ _ _ _ => true
  | _ => false
  end.

(** The device trace grows by drawings only. *)
Definition draws_only (w w' : world) : Prop :=
  exists ds, trace w' = (trace w ++ ds)%list /\ forallb is_drawn ds = true.

(** [n] calls in a row, for the same student, on the same set object. *)
Fixpoint mark_times (n : nat) (E : env) (rollNumber date_today attendance_file : string)
    (attendance_set : nat) (classPeriod : Z) : M unit :=
  match n with
  | O => ret tt
  | S n' =>
      bind (mark_attendance E rollNumber date_today attendance_file attendance_set classPeriod)
        (fun _ => mark_times n' E rollNumber date_today attendance_file
                    attendance_set classPeriod)
  end.

(** The world after a first-time mark: one row, one request, one more
    member, the "Marked" line of the log and what the forwarding logged. *)
Definition marked (E : env) (rollNumber date_today attendance_file : string)
    (attendance_set : nat) (classPeriod : Z) (w : world)
    (forwarding : list (level * string)) : world :=
  let time_str := time_str_at E (length (posts w)) in
  {| files := <[attendance_file :=
                  (default [] (files w !! attendance_file)
                   ++ [csv_row rollNumber date_today time_str classPeriod])%list]> (files w);
     posts := (posts w ++ [attendance_request rollNumber date_today time_str classPeriod])%list;
     log := ((log w ++ [(INFO, ("Marked " ++ rollNumber ++ " as Present in Class "
                                ++ pretty classPeriod ++ " at " ++ time_str)%string)])
             ++ forwarding)%list;
     trace := trace w;
     heap := <[attendance_set := {[rollNumber]} ∪ contents w attendance_set]> (heap w) |}.

(** What the forwarding logs, by what the remote end did. *)
Definition forwarding_log (rollNumber : string) (classPeriod : Z) (r : reply)
  : list (level * string) :=
  match r with
  | Response code text =>
      if (code =? 200)%Z
      then [(INFO, "Sent attendance for " ++ rollNumber ++ " (Class "
                   ++ pretty classPeriod ++ ") to backend")]
      else [(WARNING, "Failed to send attendance for " ++ rollNumber ++ " (Class "
                      ++ pretty classPeriod ++ "): " ++ text)]
  | Failure msg => [(ERROR, "Error sending attendance to backend: " ++ msg)]
  | Silence => []
  end.

Definition the_request (E : env) (rollNumber date_today : string) (classPeriod : Z)
    (w : world) : post_request :=
  attendance_request rollNumber date_today (time_str_at E (length (posts w))) classPeriod.

Definition the_reply (E : env) (rollNumber date_today : string) (classPeriod : Z)
    (w : world) : reply :=
  remote E (length (posts w)) (the_request E rollNumber date_today classPeriod w).

(** The forwarding failed: a response other than 200, or an exception. *)
Definition forwarding_failed (r : reply) : Prop :=
  match r with
  | Response code _ => code <> 200%Z
  | Failure _ => True
  | Silence => False
  end.

(** What one directory entry contributes to the gallery. *)
Definition enrolment (f : image_file) : option (embedding * string) :=
  if endswith_any (filename f) image_suffixes then
    match enrolled f with
    | Ok (r :: _) => Some (face_embedding r, fst (splitext (filename f)))
    | _ => None
    end
  else None.

(** The gallery of a dataset path: the entries of its files, in
    directory order; empty when the path does not exist. *)
Definition gallery (E : env) (dataset_path : string) : list (embedding * string) :=
  match listdir E dataset_path with
  | None => []
  | Some fs => omap enrolment fs
  end.

(** No Ctrl-C arrives while the model works on this file. *)
Definition uninterrupted (f : image_file) : Prop :=
  enrolled f <> Raise KeyboardInterrupt.

Definition uninterrupted_listing (E : env) (dataset_path : string) : Prop :=
  forall fs, listdir E dataset_path = Some fs -> Forall uninterrupted fs.

(** The remote end answers every request, one way or another. *)
Definition answering (E : env) : Prop :=
  forall k req, remote E k req <> Silence.

(** An outcome [process_frame]'s own [try] absorbs. *)
Definition absorbed (o : outcome unit) : Prop :=
  match o with
  | Returns _ => True
  | Raises e => is_Exception e = true
  | _ => False
  end.

(** The class periods the outer loop went through, in order. *)
Fixpoint periods (tr : list event) : list Z :=
  match tr with
  | [] => []
  | Cycle _ p :: tr' => p :: periods tr'
  | _ :: tr' => periods tr'
  end.

(** The capture handle along a trace, started with the handle held or
    not: [None] when the program opens a capture, sleeps or starts a turn
    while it holds one, or releases one it does not hold; otherwise
    whether it holds one at the end. *)
Fixpoint capture (holding : bool) (tr : list event) : option bool :=
  match tr with
  | [] => Some holding
  | CapOpen ok :: tr' => if holding then None else capture ok tr'
  | CapRelease :: tr' => if holding then capture false tr' else None
  | Cycle _ _ :: tr' => if holding then None else capture false tr'
  | Sleep _ :: tr' => if holding then None else capture false tr'
  | Drawn _ _ _ _ _ :: tr' => capture holding tr'
  end.

(** The process is over: the program returned or died of an exception. *)
Definition exits {A} (o : outcome A) : bool :=
  match o with
  | Returns _ | Raises _ => true
  | Blocks | Unfinished => false
  end.

(** The world once the turn has logged its start, made its set and tried
    to open the capture. *)
Definition started (a : attempt) (p c : Z) (w : world) : world :=
  {| files := files w; posts := posts w;
     log := (log w ++ [(INFO, ("Starting cycle " ++ pretty (c + 1)%Z
                               ++ " - Class Period " ++ pretty p)%string)])%list;
     trace := ((trace w ++ [Cycle (c + 1) p]) ++ [CapOpen (opened a)])%list;
     heap := <[fresh (dom (heap w)) := ∅]> (heap w) |}.

(** The capture did not open: an error line and a minute of sleep. *)
Definition backed_off (w : world) : world :=
  {| files := files w; posts := posts w;
     log := (log w ++ [(ERROR, "Unable to access camera feed")])%list;
     trace := (trace w ++ [Sleep 60])%list;
     heap := heap w |}.

Definition running (w : world) : world :=
  {| files := files w; posts := posts w;
     log := (log w ++ [(INFO, "Running attendance for 1 minute.")])%list;
     trace := trace w; heap := heap w |}.

(** After a [break]: the closing log lines, the pause, the next period. *)
Definition advanced (p c : Z) (w : world) : world :=
  {| files := files w; posts := posts w;
     log := ((((log w
        ++ [(INFO, ("Completed Class Period " ++ pretty p
                    ++ " attendance cycle " ++ pretty (c + 1)%Z)%string)])
        ++ [(INFO, "Attendance data has been automatically saved and sent to backend.")])
        ++ [(INFO, "System stopped for 1 minute break...")])
        ++ [(INFO, if (p + 1 <=? 6)%Z
                   then ("Restarting with Class Period " ++ pretty (p + 1)%Z)%string
                   else "Completed all 6 class periods. System will now close.")])%list;
     trace := (trace w ++ [Sleep 10])%list;
     heap := heap w |}.

(** Where the handle stands after a stretch of trace, and that it is free
    if the process is over. *)
Definition released {A} (w : world) (r : outcome A * world) : Prop :=
  exists tr h,
    trace (snd r) = (trace w ++ tr)%list /\
    capture false tr = Some h /\
    (exits (fst r) = true -> h = false).

Definition attendance_file_of (E : env) : string :=
  "attendance_" ++ today E ++ ".csv".

(** The world after lines 194-206: the attendance file is there and the
    five opening lines are logged. *)
Definition announced (E : env) (w : world) : world :=
  snd ((initialize_attendance (today E) ;;
        logging INFO "Starting continuous face attendance system with automatic restart." ;;
        logging INFO "System will cycle through Class Periods 1 to 6." ;;
        logging INFO "Each cycle: 1 minute active, 1 minute sleep, then automatic restart." ;;
        logging INFO "System will automatically close after completing all 6 class periods." ;;
        logging INFO "Press 'q' to quit.") w).

(** The two closing lines of the outer [finally]. *)
Definition closed (w : world) : world :=
  snd ((logging INFO "Face attendance system stopped." ;;
        logging INFO "All class periods (1-6) have been completed.") w).

(** The outer [try]: an exception is logged, Ctrl-C goes through, and the
    closing lines are logged either way. *)
Definition wound_up (r : outcome unit * world) : outcome unit * world :=
  match r with
  | (Returns _, w) => (Returns tt, closed w)
  | (Raises e, w) =>
      if is_Exception e
      then (Returns tt,
            closed (snd (logging ERROR ("Error in main loop: " ++ str e) w)))
      else (Raises e, closed w)
  | (Blocks, w) => (Blocks, w)
  | (Unfinished, w) => (Unfinished, w)
  end.

(** A turn of the inner loop that goes through: the frame is read and
    preprocessed, the model is not interrupted, the display works and the
    key is not q. *)
Definition clean_tick (t : tick) : Prop :=
  match t with
  | Read fr (Ok k) _ =>
      preprocessed fr = Ok tt /\ represented fr <> Raise KeyboardInterrupt /\
      Z.land k 255 <> ord_q
  | _ => False
  end.

(** The minute is over when this turn checks the clock. *)
Definition timed_out (start : float) (t : tick) : bool :=
  match t with
  | Read _ _ clock => PrimFloat.ltb 60 (PrimFloat.sub clock start)
  | _ => false
  end.

(** The capture opens and the inner loop runs clean turns until, after
    finitely many, the minute is over. *)
Definition clean_attempt (a : attempt) : Prop :=
  opened a = true /\
  exists pre t post,
    ticks a = (pre ++ t :: post)%list /\
    Forall clean_tick pre /\ clean_tick t /\
    Forall (fun t' => timed_out (start_time a) t' = false) pre /\
    timed_out (start_time a) t = true.

(** The frame shows one face, and the matcher names it [roll]. *)
Definition shows (fr : frame) (kf : list embedding) (sn : list string)
    (roll : string) : Prop :=
  preprocessed fr = Ok tt /\
  roll <> "Unknown" /\
  exists f, represented fr = Ok [f] /\ match_face (face_embedding f) kf sn = Ok roll.

(** The capture opens, the frame [fr] is processed, and the minute is
    over when the clock is checked after it. *)
Definition glimpse (a : attempt) (fr : frame) : Prop :=
  opened a = true /\
  exists k clock rest,
    ticks a = Read fr (Ok k) clock :: rest /\
    Z.land k 255 <> ord_q /\
    PrimFloat.ltb 60 (PrimFloat.sub clock (start_time a)) = true.

End Spec.

(** * Properties *)

(** ** Order and product of binary64 values

    Python compares floats with IEEE semantics: every comparison with a
    NaN is false, and the two zeros are equal.  The facts below are read
    off the specification of the primitive operations. *)

Module F64.
Import Spec.

Ltac cmp_cases :=
  repeat match goal with
  | |- context [Z.compare ?a ?b] => destruct (Z.compare_spec a b)
  | H : context [Z.compare ?a ?b] |- _ => destruct (Z.compare_spec a b)
  | |- context [Pos.compare_cont Eq ?a ?b] =>
      change (Pos.compare_cont Eq a b) with (Pos.compare a b);
      destruct (Pos.compare_spec a b)
  | H : context [Pos.compare_cont Eq ?a ?b] |- _ =>
      change (Pos.compare_cont Eq a b) with (Pos.compare a b) in H;
      destruct (Pos.compare_spec a b)
  end.

Ltac sf_order :=
  unfold SFltb, SFeqb, SFleb;
  repeat match goal with
  | x : spec_float |- _ => destruct x as [[|]|[|]| |[|] ? ?]
  end; simpl; intros; try discriminate; try reflexivity;
  cmp_cases; simpl in *; try discriminate; try reflexivity; try lia.

Lemma SFltb_trans x y z :
  SFltb x y = true -> SFltb y z = true -> SFltb x z = true.
Proof. sf_order. Qed.

Lemma SFltb_irrefl x : SFltb x x = false.
Proof. sf_order. Qed.

Lemma SFeqb_ltb_l x y z :
  SFeqb x y = true -> SFltb y z = true -> SFltb x z = true.
Proof. sf_order. Qed.

Lemma SFltb_leb x y :
  SFltb x y = false -> SFeqb x x = true -> SFeqb y y = true ->
  SFleb y x = true.
Proof. sf_order. Qed.

Lemma SFltb_number x y : SFltb x y = true -> SFeqb x x = true.
Proof. sf_order. Qed.

Lemma SFltb_number_r x y : SFltb x y = true -> SFeqb y y = true.
Proof. sf_order. Qed.

Lemma SFnan_ltb x y : SFeqb x x = false -> SFltb x y = false.
Proof. sf_order. Qed.

(** A finite non-zero value divided by itself: the quotient of the
    mantissas is exactly [2^53], which rounds to 1. *)
Lemma SFdiv_self sg m e :
  SFdiv prec emax (S754_finite sg m e) (S754_finite sg m e) =
    S754_finite false 4503599627370496 (-52).
Proof.
  unfold SFdiv, SFdiv_core_binary.
  replace (Zdigits2 (Z.pos m) + e - (Zdigits2 (Z.pos m) + e))%Z with 0%Z by lia.
  rewrite Z.sub_diag, xorb_nilpotent.
  change (Z.min (fexp prec emax 0) 0) with (-53)%Z.
  change (0 - -53)%Z with 53%Z. cbv iota beta.
  rewrite Z.shiftl_mul_pow2 by lia.
  pose proof (Z.div_eucl_eq (Z.pos m * 2 ^ 53) (Z.pos m) ltac:(lia)) as Heq.
  pose proof (Z.mod_pos_bound (Z.pos m * 2 ^ 53) (Z.pos m) ltac:(lia)) as Hb.
  unfold Z.modulo in Hb.
  destruct (Z.div_eucl (Z.pos m * 2 ^ 53) (Z.pos m)) as [q r].
  change (2 ^ 53)%Z with 9007199254740992%Z in *.
  assert (q = 9007199254740992)%Z as -> by nia.
  assert (r = 0)%Z as -> by lia.
  unfold new_location, new_location_even, new_location_odd.
  simpl Z.eqb. destruct (Z.even (Z.pos m)); vm_compute; reflexivity.
Qed.

Lemma SFmul_comm prec emax x y : SFmul prec emax x y = SFmul prec emax y x.
Proof.
  destruct x as [sx|sx| |sx mx ex], y as [sy|sy| |sy my ey]; simpl;
    rewrite ?(xorb_comm sx sy); auto.
  now rewrite (Pos.mul_comm mx my), (Z.add_comm ex ey).
Qed.

Lemma mul_comm (x y : float) : PrimFloat.mul x y = PrimFloat.mul y x.
Proof. apply Prim2SF_inj. rewrite !mul_spec. apply SFmul_comm. Qed.

Lemma ltb_trans (x y z : float) :
  PrimFloat.ltb x y = true -> PrimFloat.ltb y z = true ->
  PrimFloat.ltb x z = true.
Proof. rewrite !ltb_spec. apply SFltb_trans. Qed.

Lemma ltb_irrefl (x : float) : PrimFloat.ltb x x = false.
Proof. rewrite ltb_spec. apply SFltb_irrefl. Qed.

Lemma eqb_ltb_l (x y z : float) :
  PrimFloat.eqb x y = true -> PrimFloat.ltb y z = true ->
  PrimFloat.ltb x z = true.
Proof. rewrite FloatAxioms.eqb_spec, !ltb_spec. apply SFeqb_ltb_l. Qed.

Lemma ltb_number (x y : float) :
  PrimFloat.ltb x y = true -> PrimFloat.eqb x x = true.
Proof. rewrite ltb_spec, FloatAxioms.eqb_spec. apply SFltb_number. Qed.

Lemma ltb_number_r (x y : float) :
  PrimFloat.ltb x y = true -> PrimFloat.eqb y y = true.
Proof. rewrite ltb_spec, FloatAxioms.eqb_spec. apply SFltb_number_r. Qed.

Lemma nan_ltb (x y : float) :
  PrimFloat.eqb x x = false -> PrimFloat.ltb x y = false.
Proof. rewrite ltb_spec, FloatAxioms.eqb_spec. apply SFnan_ltb. Qed.

Lemma div_self (x : float) :
  finite_nonzero x = true -> PrimFloat.div x x = 1%float.
Proof.
  unfold finite_nonzero. intros H. apply Prim2SF_inj. rewrite div_spec.
  destruct (Prim2SF x) as [| | |sg m e]; try discriminate.
  unfold SF64div. rewrite SFdiv_self. vm_compute. reflexivity.
Qed.

(** Nothing is below [x] that is not below whatever [x] is below. *)
Lemma not_ltb_trans (x y z : float) :
  PrimFloat.ltb x z = false -> PrimFloat.ltb y z = true ->
  PrimFloat.ltb x y = false.
Proof.
  intros Hxz Hyz. destruct (PrimFloat.ltb x y) eqn:Hxy; auto.
  now rewrite (ltb_trans _ _ _ Hxy Hyz) in Hxz.
Qed.

Lemma not_ltb_leb (x y : float) :
  PrimFloat.ltb x y = false -> PrimFloat.eqb x x = true -> PrimFloat.eqb y y = true ->
  PrimFloat.leb y x = true.
Proof.
  rewrite ltb_spec, !FloatAxioms.eqb_spec, leb_spec. apply SFltb_leb.
Qed.

End F64.

(** ** The matcher: [min] and [list.index] on the list of distances *)

Module Matcher.
Import Numpy Py Attendance Spec.

Lemma below_trans (m b c : obj) : below m b -> below b c -> below m c.
Proof.
  intros [-> | H1] [-> | H2]; unfold below; auto.
  right. eapply F64.ltb_trans; eauto.
Qed.

Lemma below_not_ltb (m b : obj) (x : float) :
  below m b -> PrimFloat.ltb x (val b) = false -> PrimFloat.ltb x (val m) = false.
Proof.
  intros [-> | H] Hx; auto. eapply F64.not_ltb_trans; eauto.
Qed.

(** What [min_from] returns on freshly allocated objects: the running
    best or a later object strictly below it, never above any element,
    and not equal to any element in front of it. *)
Lemma min_from_alloc (ds : list float) :
  forall (n : nat) (b : obj),
    let m := min_from b (alloc_from n ds) in
    (m = b \/
     exists i d, ds !! i = Some d /\ m = {| oid := n + i; val := d |} /\
       PrimFloat.ltb d (val b) = true /\
       forall j dj, (j < i)%nat -> ds !! j = Some dj -> PrimFloat.eqb dj d = false)
    /\ below m b
    /\ forall j dj, ds !! j = Some dj -> PrimFloat.ltb dj (val m) = false.
Proof.
  induction ds as [|d ds IH]; intros n b; simpl.
  - split; [now left|]. split; [now left|]. intros j dj Hj. now destruct j.
  - set (b' := if PrimFloat.ltb d (val b) then {| oid := n; val := d |} else b).
    destruct (IH (S n) b') as (Hm & Hbelow & Hmin).
    assert (Hb' : below b' b).
    { unfold b'. destruct (PrimFloat.ltb d (val b)) eqn:Hd; [right | left]; auto. }
    assert (Hd' : PrimFloat.ltb d (val b') = false).
    { unfold b'. destruct (PrimFloat.ltb d (val b)) eqn:Hd; auto.
      apply F64.ltb_irrefl. }
    split; [|split].
    + destruct Hm as [Hm | (i & d' & Hi & Hm & Hlt & Hfirst)].
      * rewrite Hm. unfold b'.
        destruct (PrimFloat.ltb d (val b)) eqn:Hd; [right | now left].
        exists 0%nat, d. rewrite Nat.add_0_r. repeat split; auto. intros; lia.
      * right. exists (S i), d'. rewrite Nat.add_succ_r.
        split; [exact Hi|]. split; [exact Hm|]. split.
        -- destruct Hb' as [Hb' | Hb']; [now rewrite <- Hb'|].
           eapply F64.ltb_trans; eauto.
        -- intros [|j] dj Hj Hdj; [|apply (Hfirst j); auto; lia].
           simpl in Hdj. assert (Hx : dj = d) by congruence. rewrite Hx.
           destruct (PrimFloat.eqb d d') eqn:He; auto.
           now rewrite (F64.eqb_ltb_l _ _ _ He Hlt) in Hd'.
    + eapply below_trans; eauto.
    + intros [|j] dj Hdj; [|now apply (Hmin j)].
      simpl in Hdj. assert (Hx : dj = d) by congruence. rewrite Hx.
      eapply below_not_ltb; eauto.
Qed.

Lemma index_from_alloc (ds : list float) :
  forall (n i : nat) (d : float),
    ds !! i = Some d ->
    (forall j dj, (j < i)%nat -> ds !! j = Some dj -> PrimFloat.eqb dj d = false) ->
    index_from n (alloc_from n ds) {| oid := n + i; val := d |} = Ok (n + i)%nat.
Proof.
  induction ds as [|d0 ds IH]; intros n i d Hi Hfirst; [now destruct i|].
  simpl. unfold same; simpl. destruct i as [|i].
  - now rewrite Nat.add_0_r, Nat.eqb_refl.
  - replace (Nat.eqb n (n + S i)) with false
      by (symmetry; apply Nat.eqb_neq; lia).
    rewrite (Hfirst 0%nat d0) by (simpl; auto; lia). simpl.
    rewrite Nat.add_succ_r. apply (IH (S n) i d); auto.
    intros j dj Hj Hdj. apply (Hfirst (S j)); auto; lia.
Qed.

Lemma cosine_distance_defined (a b : embedding) :
  length b = length a -> exists d, cosine_distance f64 a b = Ok d.
Proof.
  intros H. unfold cosine_distance, dot. rewrite H, Nat.eqb_refl. simpl. eauto.
Qed.

Lemma comprehension_defined (probe : embedding) (known_faces : list embedding) :
  Forall (fun known => length known = length probe) known_faces ->
  exists ds,
    comprehension (cosine_distance f64 probe) known_faces = Ok ds /\
    Forall2 (fun known dk => cosine_distance f64 probe known = Ok dk) known_faces ds.
Proof.
  induction 1 as [|k ks Hk _ (ds & Hds & Hall)].
  - exists []. split; [reflexivity | constructor].
  - destruct (cosine_distance_defined probe k Hk) as (d & Hd).
    exists (d :: ds). simpl. rewrite Hd, Hds. split; [reflexivity|].
    now constructor.
Qed.

(** The position [match_face] settles on: no distance is strictly below
    the one found there, no earlier position holds an equal one, and it
    is the first position unless its distance is strictly below the
    first one. *)
Lemma match_face_choice
    (probe : embedding) (known_faces : list embedding) (student_names : list string) :
  known_faces <> [] ->
  Forall (fun known => length known = length probe) known_faces ->
  exists (ds : list float) (i : nat) (d : float),
    Forall2 (fun known dk => cosine_distance f64 probe known = Ok dk) known_faces ds /\
    ds !! i = Some d /\
    (forall j dj, ds !! j = Some dj -> PrimFloat.ltb dj d = false) /\
    (forall j dj, (j < i)%nat -> ds !! j = Some dj -> PrimFloat.eqb dj d = false) /\
    (i = 0%nat \/ exists d0, ds !! 0%nat = Some d0 /\ PrimFloat.ltb d d0 = true) /\
    match_face probe known_faces student_names =
      if PrimFloat.ltb d DISTANCE_THRESHOLD then getitem student_names i
      else Ok "Unknown".
Proof.
  intros Hne Hdim.
  destruct (comprehension_defined probe known_faces Hdim) as (ds & Hds & Hall).
  assert (Hlen' : length ds = length known_faces)
    by (symmetry; eapply Forall2_length; eauto).
  destruct ds as [|d0 ds]; [destruct known_faces; [congruence | discriminate]|].
  destruct (min_from_alloc ds 1 {| oid := 0; val := d0 |}) as (Hm & Hbelow & Hmin).
  set (m := min_from {| oid := 0; val := d0 |} (alloc_from 1 ds)) in *.
  assert (Hpos : exists i d, (d0 :: ds) !! i = Some d /\ m = {| oid := i; val := d |} /\
            (i = 0%nat \/ PrimFloat.ltb d d0 = true) /\
            forall j dj, (j < i)%nat -> (d0 :: ds) !! j = Some dj ->
                         PrimFloat.eqb dj d = false).
  { destruct Hm as [Hm | (i & d & Hi & Hm & Hlt & Hfirst)].
    - exists 0%nat, d0. repeat split; auto. intros; lia.
    - exists (S i), d. repeat split; auto.
      intros [|j] dj Hj Hdj; [|apply (Hfirst j); auto; lia].
      simpl in Hdj. assert (Hx : dj = d0) by congruence. rewrite Hx.
      destruct (PrimFloat.eqb d0 d) eqn:He; auto.
      pose proof (F64.eqb_ltb_l _ _ _ He Hlt) as Hc. simpl in Hc.
      now rewrite F64.ltb_irrefl in Hc. }
  destruct Hpos as (i & d & Hi & Hmi & Hhead & Hfirst).
  assert (Hall_min : forall j dj, (d0 :: ds) !! j = Some dj ->
                                  PrimFloat.ltb dj (val m) = false).
  { intros [|j] dj Hdj; [|now apply (Hmin j)].
    simpl in Hdj. assert (Hx : dj = d0) by congruence. rewrite Hx.
    eapply below_not_ltb; eauto. apply F64.ltb_irrefl. }
  exists (d0 :: ds), i, d.
  split; [exact Hall|]. split; [exact Hi|].
  rewrite Hmi in Hall_min. simpl in Hall_min.
  split; [exact Hall_min|]. split; [exact Hfirst|].
  split; [destruct Hhead as [-> | Hlt]; [now left | right; now exists d0]|].
  unfold match_face, distances_to. rewrite Hds. simpl.
  fold m. rewrite Hmi. unfold index.
  pose proof (index_from_alloc (d0 :: ds) 0 i d Hi Hfirst) as Hidx.
  rewrite Nat.add_0_l in Hidx. unfold alloc. rewrite Hidx. reflexivity.
Qed.

Lemma match_face_position
    (probe : embedding) (known_faces : list embedding) (student_names : list string) :
  known_faces <> [] ->
  Forall (fun known => length known = length probe) known_faces ->
  exists (ds : list float) (i : nat) (d : float),
    Forall2 (fun known dk => cosine_distance f64 probe known = Ok dk) known_faces ds /\
    ds !! i = Some d /\
    (forall j dj, ds !! j = Some dj -> PrimFloat.ltb dj d = false) /\
    (forall j dj, (j < i)%nat -> ds !! j = Some dj -> PrimFloat.eqb dj d = false) /\
    match_face probe known_faces student_names =
      if PrimFloat.ltb d DISTANCE_THRESHOLD then getitem student_names i
      else Ok "Unknown".
Proof.
  intros Hne Hdim.
  destruct (match_face_choice probe known_faces student_names Hne Hdim)
    as (ds & i & d & Hall & Hi & Hmin & Hfirst & _ & Hres).
  exists ds, i, d. auto.
Qed.

(** C1, as the code has it.  For every probe and every non-empty gallery
    of embeddings of the probe's dimension, [match_face] computes the
    cosine distance [ds] from the probe to each entry and settles on a
    position [i] with distance [d], the first position holding that
    distance, and returns the name at [i] when [d < DISTANCE_THRESHOLD]
    and "Unknown" otherwise.  When the distance to the first entry is a
    number, [d] is a number and is at most every distance that is a
    number: the entry is the nearest one, and an entry whose distance is
    a NaN is never chosen.  When the distance to the first entry is a NaN
    (a zero norm), [min] keeps it: the position is 0 and the answer is
    "Unknown". *)
Theorem match_face_selects_minimum
    (probe : embedding) (known_faces : list embedding) (student_names : list string) :
  known_faces <> [] ->
  length student_names = length known_faces ->
  Forall (fun known => length known = length probe) known_faces ->
  exists (ds : list float) (d0 : float) (i : nat) (d : float) (name : string),
    Forall2 (fun known dk => cosine_distance f64 probe known = Ok dk) known_faces ds /\
    ds !! 0%nat = Some d0 /\
    ds !! i = Some d /\
    student_names !! i = Some name /\
    (forall j dj, (j < i)%nat -> ds !! j = Some dj -> PrimFloat.eqb dj d = false) /\
    match_face probe known_faces student_names =
      Ok (if PrimFloat.ltb d DISTANCE_THRESHOLD then name else "Unknown") /\
    (is_number d0 = true ->
     is_number d = true /\
     forall j dj, ds !! j = Some dj -> is_number dj = true -> PrimFloat.leb d dj = true) /\
    (is_number d0 = false ->
     i = 0%nat /\ match_face probe known_faces student_names = Ok "Unknown").
Proof.
  intros Hne Hlen Hdim.
  destruct (match_face_choice probe known_faces student_names Hne Hdim)
    as (ds & i & d & Hall & Hi & Hmin & Hfirst & Hhead & Hres).
  assert (Hi' : (i < length student_names)%nat).
  { pose proof (Forall2_length _ _ _ Hall) as Hlen'.
    apply lookup_lt_Some in Hi. unfold embedding in *. lia. }
  destruct (lookup_lt_is_Some_2 student_names i Hi') as (name & Hname).
  assert (H0 : exists d0, ds !! 0%nat = Some d0).
  { destruct ds as [|d0 ds]; [destruct i; discriminate | now exists d0]. }
  destruct H0 as (d0 & Hd0).
  assert (Hanswer : match_face probe known_faces student_names =
                      Ok (if PrimFloat.ltb d DISTANCE_THRESHOLD then name else "Unknown")).
  { rewrite Hres. unfold getitem. rewrite Hname.
    now destruct (PrimFloat.ltb d DISTANCE_THRESHOLD). }
  exists ds, d0, i, d, name.
  split; [exact Hall|]. split; [exact Hd0|]. split; [exact Hi|].
  split; [exact Hname|]. split; [exact Hfirst|]. split; [exact Hanswer|].
  unfold is_number. split.
  - intros Hnum0.
    assert (Hnum : PrimFloat.eqb d d = true).
    { destruct Hhead as [-> | (d0' & Hd0' & Hlt)].
      - congruence.
      - eapply F64.ltb_number; eauto. }
    split; [exact Hnum|].
    intros j dj Hdj Hnumj. apply F64.not_ltb_leb; eauto.
  - intros Hnan0.
    destruct Hhead as [-> | (d0' & Hd0' & Hlt)].
    + split; [reflexivity|].
      assert (d = d0) as -> by congruence.
      rewrite Hanswer. now rewrite (F64.nan_ltb d0 DISTANCE_THRESHOLD Hnan0).
    + assert (d0' = d0) as -> by congruence.
      rewrite (F64.ltb_number_r _ _ Hlt) in Hnan0. discriminate.
Qed.

End Matcher.

(** ** What a computation may change

    A relation between the world before and the world after that is
    reflexive and transitive is kept by a computation as soon as its
    parts keep it. *)

Module Effects.
Import Attendance Spec.

Section Preserves.
Context (R : relation world) `{!PreOrder R}.

Lemma preserves_ret {A} (a : A) : preserves R (ret a).
Proof. intros w. reflexivity. Qed.

Lemma preserves_raise {A} (e : exn) : preserves R (@raise A e).
Proof. intros w. reflexivity. Qed.

Lemma preserves_unfinished {A} : preserves R (@unfinished A).
Proof. intros w. reflexivity. Qed.

Lemma preserves_lift {A} (r : result A) : preserves R (lift r).
Proof. destruct r; [apply preserves_ret | apply preserves_raise]. Qed.

Lemma preserves_bind {A B} (m : M A) (k : A -> M B) :
  preserves R m -> (forall a, preserves R (k a)) -> preserves R (bind m k).
Proof.
  intros Hm Hk w. unfold bind. specialize (Hm w).
  destruct (m w) as [[a|e| |] w']; simpl in *; auto.
  etransitivity; [exact Hm | apply Hk].
Qed.

Lemma preserves_try_except {A} (m : M A) (h : exn -> M A) :
  preserves R m -> (forall e, preserves R (h e)) -> preserves R (try_except m h).
Proof.
  intros Hm Hh w. unfold try_except. specialize (Hm w).
  destruct (m w) as [[a|e| |] w']; simpl in *; auto.
  destruct (is_Exception e); simpl; auto.
  etransitivity; [exact Hm | apply Hh].
Qed.

Lemma preserves_try_except_interrupt {A} (m h : M A) :
  preserves R m -> preserves R h -> preserves R (try_except_interrupt m h).
Proof.
  intros Hm Hh w. unfold try_except_interrupt. specialize (Hm w).
  destruct (m w) as [[a|e| |] w']; simpl in *; auto.
  destruct e; simpl; auto.
  etransitivity; [exact Hm | apply Hh].
Qed.

Lemma preserves_try_finally {A} (m : M A) (f : M unit) :
  preserves R m -> preserves R f -> preserves R (try_finally m f).
Proof.
  intros Hm Hf w. unfold try_finally. specialize (Hm w).
  destruct (m w) as [[a|e| |] w']; simpl in *; auto.
  - etransitivity; [exact Hm|].
    apply (preserves_bind f (fun _ => ret a)); auto using preserves_ret.
  - etransitivity; [exact Hm|].
    apply (preserves_bind f (fun _ => raise e)); auto using preserves_raise.
Qed.

End Preserves.

#[export] Instance only_log_preorder : PreOrder only_log.
Proof.
  split.
  - intros w. unfold only_log. auto.
  - intros w1 w2 w3 (H1 & H2 & H3 & H4) (H5 & H6 & H7 & H8).
    unfold only_log. repeat split; congruence.
Qed.

Lemma only_log_logging l msg : preserves only_log (logging l msg).
Proof. intros w. unfold only_log. auto. Qed.

#[export] Instance draws_only_preorder : PreOrder draws_only.
Proof.
  split.
  - intros w. exists []. split; [now rewrite app_nil_r | reflexivity].
  - intros w1 w2 w3 (d1 & H1 & Hd1) (d2 & H2 & Hd2).
    exists (d1 ++ d2)%list. split.
    + now rewrite H2, H1, app_assoc.
    + now rewrite forallb_app, Hd1, Hd2.
Qed.

Lemma draws_only_same_trace (w w' : world) : trace w' = trace w -> draws_only w w'.
Proof. intros H. exists []. split; [now rewrite app_nil_r | reflexivity]. Qed.

End Effects.

(** ** The ledger: [mark_attendance] *)

Module Ledger.
Import Numpy Py Attendance Spec.

Lemma mark_attendance_known E roll date file r p w :
  roll ∈ contents w r ->
  mark_attendance E roll date file r p w = (Returns tt, w).
Proof.
  intros Hin. unfold mark_attendance, bind, set_mem.
  now rewrite bool_decide_eq_true_2.
Qed.

Lemma mark_attendance_new E roll date file r p w :
  roll ∉ contents w r ->
  mark_attendance E roll date file r p w =
    (match the_reply E roll date p w with Silence => Blocks | _ => Returns tt end,
     marked E roll date file r p w (forwarding_log roll p (the_reply E roll date p w))).
Proof.
  intros Hnot. unfold mark_attendance, bind, set_mem.
  rewrite bool_decide_eq_false_2 by assumption. simpl.
  unfold try_except, bind, requests_post, the_reply, the_request, marked. simpl.
  destruct (remote E (length (posts w)) _) as [code text| msg |]; simpl.
  - destruct (code =? 200)%Z; reflexivity.
  - reflexivity.
  - rewrite app_nil_r. reflexivity.
Qed.

Lemma contents_marked E roll date file r p w fw :
  contents (marked E roll date file r p w fw) r = {[roll]} ∪ contents w r.
Proof. unfold contents at 1, marked. simpl. now rewrite lookup_insert_eq. Qed.

Lemma mark_times_known n E roll date file r p w :
  roll ∈ contents w r ->
  mark_times n E roll date file r p w = (Returns tt, w).
Proof.
  intros Hin. induction n as [|n IH]; [reflexivity|].
  simpl. unfold bind. now rewrite mark_attendance_known.
Qed.

Lemma files_marked E roll date file r p w fw :
  files (marked E roll date file r p w fw) !! file =
    Some (default [] (files w !! file)
          ++ [csv_row roll date (time_str_at E (length (posts w))) p])%list.
Proof. unfold marked. simpl. now rewrite lookup_insert_eq. Qed.

Lemma roll_in_marked E roll date file r p w fw :
  roll ∈ contents (marked E roll date file r p w fw) r.
Proof. rewrite contents_marked. set_solver. Qed.

(** C2. A call for a student already in the set changes nothing (no row,
    no request, no log line).  Hence any positive number of calls for a
    student not yet in the set leaves exactly one new row in the file and
    exactly one request sent, and the student in the set. *)
Theorem mark_attendance_idempotent E roll date file r p w :
  (roll ∈ contents w r ->
   mark_attendance E roll date file r p w = (Returns tt, w)) /\
  (roll ∉ contents w r ->
   forall n,
     let w' := snd (mark_times (S n) E roll date file r p w) in
     files w' !! file =
       Some (default [] (files w !! file)
             ++ [csv_row roll date (time_str_at E (length (posts w))) p])%list /\
     posts w' = (posts w ++ [the_request E roll date p w])%list /\
     roll ∈ contents w' r).
Proof.
  split; [apply mark_attendance_known|].
  intros Hnot n. simpl. unfold bind. rewrite mark_attendance_new by assumption.
  set (w1 := marked _ _ _ _ _ _ _ _).
  assert (Hw1 : files w1 !! file =
                  Some (default [] (files w !! file)
                        ++ [csv_row roll date (time_str_at E (length (posts w))) p])%list
                /\ posts w1 = (posts w ++ [the_request E roll date p w])%list
                /\ roll ∈ contents w1 r).
  { split; [apply files_marked|]. split; [reflexivity | apply roll_in_marked]. }
  destruct (the_reply E roll date p w); simpl;
    rewrite ?mark_times_known by apply roll_in_marked; exact Hw1.
Qed.

(** C4. When the forwarding of a first-time mark fails, the call still
    returns with the row appended, the student in the set and one request
    on record; a repeated call sends nothing more, and the mark of any
    student not yet in the set goes through as usual. *)
Theorem remote_failure_keeps_local_record E roll date file r p w :
  roll ∉ contents w r ->
  forwarding_failed (the_reply E roll date p w) ->
  exists w',
    mark_attendance E roll date file r p w = (Returns tt, w') /\
    files w' !! file =
      Some (default [] (files w !! file)
            ++ [csv_row roll date (time_str_at E (length (posts w))) p])%list /\
    roll ∈ contents w' r /\
    posts w' = (posts w ++ [the_request E roll date p w])%list /\
    mark_attendance E roll date file r p w' = (Returns tt, w') /\
    forall other p',
      other ∉ contents w' r ->
      let w'' := snd (mark_attendance E other date file r p' w') in
      files w'' !! file =
        Some (default [] (files w !! file)
              ++ [csv_row roll date (time_str_at E (length (posts w))) p;
                  csv_row other date (time_str_at E (S (length (posts w)))) p'])%list /\
      other ∈ contents w'' r /\
      posts w'' = (posts w' ++ [the_request E other date p' w'])%list.
Proof.
  intros Hnot Hfail.
  exists (marked E roll date file r p w (forwarding_log roll p (the_reply E roll date p w))).
  split.
  { rewrite mark_attendance_new by assumption.
    destruct (the_reply E roll date p w); [reflexivity | reflexivity | destruct Hfail]. }
  set (w' := marked _ _ _ _ _ _ _ _).
  split; [apply files_marked|]. split; [apply roll_in_marked|].
  split; [reflexivity|].
  split; [apply mark_attendance_known, roll_in_marked|].
  intros other p' Hother. simpl.
  rewrite mark_attendance_new by assumption. simpl.
  split; [|split; [apply roll_in_marked | reflexivity]].
  rewrite !lookup_insert_eq. simpl.
  rewrite length_app, Nat.add_1_r. simpl.
  now rewrite <- app_assoc.
Qed.

(** C9, as the code has it.  The request carries no timeout.  When the
    remote end stays silent the call does not return; in every other case
    the mark returns normally, and an exception or a response other than
    200 is logged as a failed forwarding. *)
Theorem forwarding_has_no_timeout E roll date file r p w :
  roll ∉ contents w r ->
  timeout (the_request E roll date p w) = None /\
  match the_reply E roll date p w with
  | Silence => fst (mark_attendance E roll date file r p w) = Blocks
  | Response code text =>
      exists w', mark_attendance E roll date file r p w = (Returns tt, w') /\
        ((code = 200%Z /\ exists msg, last (log w') = Some (INFO, msg)) \/
         (code <> 200%Z /\ exists msg, last (log w') = Some (WARNING, msg)))
  | Failure msg =>
      exists w', mark_attendance E roll date file r p w = (Returns tt, w') /\
        last (log w') = Some (ERROR, "Error sending attendance to backend: " ++ msg)
  end.
Proof.
  intros Hnot. split; [reflexivity|].
  rewrite mark_attendance_new by assumption.
  destruct (the_reply E roll date p w) as [code text|msg|] eqn:Hr; simpl.
  - eexists. split; [reflexivity|]. simpl.
    destruct (Z.eqb_spec code 200); [left | right]; (split; [assumption|]);
      eexists; apply last_snoc.
  - eexists. split; [reflexivity|]. simpl. apply last_snoc.
  - reflexivity.
Qed.

End Ledger.

(** ** The cosine distance *)

Module Cosine.
Import Numpy Attendance Spec.

Section Commutative.
Context {T : Type} (N : arith T).
Hypothesis mul_comm : forall x y, mul N x y = mul N y x.

Lemma dot_acc_comm (a b : list T) :
  forall acc, dot_acc N acc a b = dot_acc N acc b a.
Proof.
  revert b; induction a as [|x a IH]; intros [|y b] acc; simpl; auto.
  rewrite (mul_comm x y). apply IH.
Qed.

Lemma cosine_distance_comm (a b : list T) :
  cosine_distance N a b = cosine_distance N b a.
Proof.
  unfold cosine_distance, dot.
  rewrite (Nat.eqb_sym (length a) (length b)).
  destruct (Nat.eqb (length b) (length a)); simpl; auto.
  now rewrite dot_acc_comm, (mul_comm (norm N a)).
Qed.

End Commutative.

(** The distance of a vector to itself, by its squared norm [s] as
    computed: a NaN when [s] is a zero, an infinity or a NaN, and 0 when
    [s] is finite, not zero, and the square of its square root. *)
Lemma cosine_distance_self (a : embedding) :
  if finite_nonzero (squared_norm a)
  then PrimFloat.mul (PrimFloat.sqrt (squared_norm a)) (PrimFloat.sqrt (squared_norm a))
         = squared_norm a ->
       cosine_distance f64 a a = Ok 0%float
  else cosine_distance f64 a a = Ok nan.
Proof.
  unfold cosine_distance, dot, norm, squared_norm. rewrite Nat.eqb_refl.
  cbn [rbind zero one sub div mul sqrt f64].
  set (s := dot_acc f64 0%float a a).
  destruct (finite_nonzero s) eqn:Hs.
  - intros Hsq. rewrite Hsq, (F64.div_self s Hs). reflexivity.
  - unfold finite_nonzero in Hs. rewrite <- (SF2Prim_Prim2SF s).
    destruct (Prim2SF s) as [[|]|[|]| |sg m e]; try discriminate;
      vm_compute; reflexivity.
Qed.


End Cosine.

(** ** The gallery loader *)

Module Loader.
Import Numpy Py Attendance Effects Spec.

Lemma load_file_spec (f : image_file) (kf : list embedding) (sn : list string) (w : world) :
  uninterrupted f ->
  exists w',
    load_file f kf sn w =
      (Returns match enrolment f with
               | Some (e, n) => (kf ++ [e], sn ++ [n])%list
               | None => (kf, sn)
               end, w') /\
    only_log w w'.
Proof.
  intros Hf. unfold load_file, enrolment.
  destruct (endswith_any (filename f) image_suffixes).
  - unfold try_except, bind. unfold uninterrupted in Hf.
    destruct (enrolled f) as [[|r rs]|e]; simpl.
    + eexists; split; [reflexivity | apply only_log_logging].
    + eexists; split; [reflexivity | apply only_log_logging].
    + destruct e; simpl; try congruence;
        (eexists; split; [reflexivity | apply only_log_logging]).
  - eexists; split; [reflexivity | reflexivity].
Qed.

Lemma load_files_spec (fs : list image_file) :
  Forall uninterrupted fs ->
  forall (kf : list embedding) (sn : list string) (w : world),
  exists w',
    load_files fs kf sn w =
      (Returns ((kf ++ (omap enrolment fs).*1)%list,
                (sn ++ (omap enrolment fs).*2)%list), w') /\
    only_log w w'.
Proof.
  induction 1 as [|f fs Hf _ IH]; intros kf sn w; simpl.
  - rewrite !app_nil_r. eexists; split; reflexivity.
  - destruct (load_file_spec f kf sn w Hf) as (w1 & H1 & Hlog1).
    unfold bind. rewrite H1.
    destruct (enrolment f) as [[e n]|].
    + destruct (IH (kf ++ [e])%list (sn ++ [n])%list w1) as (w2 & H2 & Hlog2).
      exists w2. split; [|etransitivity; eauto].
      rewrite H2. simpl. now rewrite <- !app_assoc.
    + destruct (IH kf sn w1) as (w2 & H2 & Hlog2).
      exists w2. split; [exact H2 | etransitivity; eauto].
Qed.

Lemma load_known_faces_spec (E : env) (dataset_path : string) (w : world) :
  uninterrupted_listing E dataset_path ->
  exists w',
    load_known_faces E dataset_path w =
      (Returns ((gallery E dataset_path).*1, (gallery E dataset_path).*2), w') /\
    only_log w w'.
Proof.
  intros Hfs. unfold load_known_faces, gallery. unfold uninterrupted_listing in Hfs.
  destruct (listdir E dataset_path) as [fs|].
  - destruct (load_files_spec fs (Hfs fs eq_refl) [] [] w) as (w1 & H1 & Hlog1).
    unfold bind. rewrite H1. simpl.
    eexists; split; [reflexivity|]. etransitivity; [exact Hlog1|].
    apply only_log_logging.
  - eexists; split; [reflexivity | apply only_log_logging].
Qed.

(** C10. Unless interrupted, [load_known_faces] returns two lists of equal
    length which, zipped, are the gallery: the i-th name is the stem of
    the file the i-th embedding was taken from.  For a non-empty gallery
    and a probe of its dimension, the position [match_face] picks is
    inside both lists, holds an embedding no other is strictly nearer
    than, and the name returned when the threshold lets it through is the
    one enrolled with that embedding. *)
Theorem gallery_lists_aligned (E : env) (dataset_path : string) (w : world) :
  uninterrupted_listing E dataset_path ->
  exists (known_faces : list embedding) (student_names : list string) (w' : world),
    load_known_faces E dataset_path w = (Returns (known_faces, student_names), w') /\
    length known_faces = length student_names /\
    zip known_faces student_names = gallery E dataset_path /\
    forall probe : embedding,
      known_faces <> [] ->
      Forall (fun known => length known = length probe) known_faces ->
      exists (i : nat) (e : embedding) (name : string) (d : float),
        known_faces !! i = Some e /\
        student_names !! i = Some name /\
        gallery E dataset_path !! i = Some (e, name) /\
        cosine_distance f64 probe e = Ok d /\
        (forall e' d', e' ∈ known_faces -> cosine_distance f64 probe e' = Ok d' ->
                       PrimFloat.ltb d' d = false) /\
        match_face probe known_faces student_names =
          Ok (if PrimFloat.ltb d DISTANCE_THRESHOLD then name else "Unknown").
Proof.
  intros Hfs.
  destruct (load_known_faces_spec E dataset_path w Hfs) as (w' & Hload & _).
  set (g := gallery E dataset_path) in *.
  exists (g.*1), (g.*2), w'.
  split; [exact Hload|]. split; [now rewrite !length_fmap|].
  split; [apply zip_fst_snd|].
  intros probe Hne Hdim.
  destruct (Matcher.match_face_position probe (g.*1) (g.*2) Hne Hdim)
    as (ds & i & d & Hall & Hi & Hmin & _ & Hres).
  destruct (Forall2_lookup_r _ _ _ _ _ Hall Hi) as (e & He & Hd).
  rewrite list_lookup_fmap in He.
  destruct (g !! i) as [[e0 name]|] eqn:Hg; simpl in He; [|discriminate].
  assert (e0 = e) as -> by congruence.
  exists i, e, name, d.
  assert (Hname : g.*2 !! i = Some name) by (now rewrite list_lookup_fmap, Hg).
  split; [now rewrite list_lookup_fmap, Hg|]. split; [exact Hname|].
  split; [exact Hg|]. split; [exact Hd|]. split.
  - intros e' d' Hin Hd'.
    apply list_elem_of_lookup in Hin as (j & Hj).
    destruct (Forall2_lookup_l _ _ _ _ _ Hall Hj) as (dj & Hdj & Hcos).
    assert (dj = d') as -> by congruence.
    exact (Hmin j d' Hdj).
  - rewrite Hres. unfold getitem. rewrite Hname.
    now destruct (PrimFloat.ltb d DISTANCE_THRESHOLD).
Qed.

End Loader.

(** ** Frames: what processing one may leave behind *)

Module Frames.
Import Numpy Py Attendance Effects Ledger Spec.

Lemma draws_only_logging l msg : preserves draws_only (logging l msg).
Proof. intros w. now apply draws_only_same_trace. Qed.

Lemma draws_only_emit_drawn l t r b name :
  preserves draws_only (emit (Drawn l t r b name)).
Proof. intros w. exists [Drawn l t r b name]. split; reflexivity. Qed.

Lemma draws_only_mark_attendance E roll date file r p :
  preserves draws_only (mark_attendance E roll date file r p).
Proof.
  intros w. apply draws_only_same_trace.
  destruct (decide (roll ∈ contents w r)) as [Hin | Hnot].
  - now rewrite mark_attendance_known.
  - now rewrite mark_attendance_new.
Qed.

Lemma draws_only_process_face E f kf sn file r date p :
  preserves draws_only (process_face E f kf sn file r date p).
Proof.
  unfold process_face.
  apply preserves_bind; [typeclasses eauto | apply preserves_lift; typeclasses eauto |].
  intros name.
  apply preserves_bind; [typeclasses eauto | apply draws_only_emit_drawn |].
  intros _. destruct (negb (String.eqb name "Unknown")).
  - apply draws_only_mark_attendance.
  - apply preserves_ret; typeclasses eauto.
Qed.

Lemma draws_only_process_faces E fs kf sn file r date p :
  preserves draws_only (process_faces E fs kf sn file r date p).
Proof.
  induction fs as [|f fs IH]; simpl.
  - apply preserves_ret; typeclasses eauto.
  - apply preserves_bind; [typeclasses eauto | apply draws_only_process_face | auto].
Qed.

Lemma draws_only_process_frame E fr kf sn file r date p :
  preserves draws_only (process_frame E fr kf sn file r date p).
Proof.
  unfold process_frame.
  apply preserves_bind; [typeclasses eauto | apply preserves_lift; typeclasses eauto |].
  intros _. apply preserves_try_except; [typeclasses eauto | |].
  - apply preserves_bind; [typeclasses eauto | apply preserves_lift; typeclasses eauto |].
    intros fs. apply draws_only_process_faces.
  - intros e. apply draws_only_logging.
Qed.

Lemma draws_only_active E ts start kf sn file r date p :
  preserves draws_only (active E ts start kf sn file r date p).
Proof.
  induction ts as [|t ts IH]; simpl.
  - apply preserves_unfinished; typeclasses eauto.
  - destruct t as [|e|fr key clock].
    + apply preserves_bind; [typeclasses eauto | apply draws_only_logging |].
      intros _. apply preserves_ret; typeclasses eauto.
    + apply preserves_raise; typeclasses eauto.
    + apply preserves_bind; [typeclasses eauto | apply draws_only_process_frame |].
      intros _.
      apply preserves_bind; [typeclasses eauto | apply preserves_lift; typeclasses eauto |].
      intros k. destruct (Z.land k 255 =? ord_q)%Z; [apply preserves_ret; typeclasses eauto|].
      destruct (PrimFloat.ltb 60 (PrimFloat.sub clock start));
        [apply preserves_ret; typeclasses eauto | exact IH].
Qed.

(** The matcher raises nothing that [except Exception] lets through. *)
Lemma comprehension_raises (probe : embedding) (kf : list embedding) (e : exn) :
  comprehension (cosine_distance f64 probe) kf = Raise e -> e = ValueError.
Proof.
  induction kf as [|k kf IH]; simpl; [discriminate|].
  unfold cosine_distance at 1, dot.
  destruct (Nat.eqb (length probe) (length k)); simpl; [|congruence].
  destruct (comprehension (cosine_distance f64 probe) kf); simpl; [discriminate|].
  intros H. apply IH. congruence.
Qed.

Lemma index_from_raises (xs : list obj) (x : obj) (e : exn) :
  forall n, index_from n xs x = Raise e -> e = ValueError.
Proof.
  induction xs as [|y xs IH]; simpl; intros n; [congruence|].
  destruct (same y x); [discriminate | apply IH].
Qed.

Lemma match_face_raises (probe : embedding) kf sn (e : exn) :
  match_face probe kf sn = Raise e -> is_Exception e = true.
Proof.
  unfold match_face, distances_to.
  destruct (comprehension (cosine_distance f64 probe) kf) as [ds|e0] eqn:Hc; simpl.
  - destruct (Py.min (alloc ds)) as [m|e1] eqn:Hm; simpl.
    + destruct (index (alloc ds) m) as [i|e2] eqn:Hi; simpl.
      * destruct (PrimFloat.ltb (val m) DISTANCE_THRESHOLD); [|discriminate].
        unfold getitem. destruct (sn !! i); [discriminate|].
        intros H. now injection H as <-.
      * intros H. injection H as <-.
        now rewrite (index_from_raises _ _ _ _ Hi).
    + destruct (alloc ds); simpl in Hm; [|discriminate].
      intros H. injection H as <-. now injection Hm as <-.
  - intros H. injection H as <-. now rewrite (comprehension_raises _ _ _ Hc).
Qed.

Lemma mark_attendance_returns E roll date file r p w :
  answering E -> fst (mark_attendance E roll date file r p w) = Returns tt.
Proof.
  intros Hans. destruct (decide (roll ∈ contents w r)) as [Hin | Hnot].
  - now rewrite mark_attendance_known.
  - rewrite mark_attendance_new by assumption. simpl.
    destruct (the_reply E roll date p w) eqn:Hr; auto.
    now apply Hans in Hr.
Qed.

Lemma process_faces_outcome E fs kf sn file r date p :
  answering E ->
  forall w, absorbed (fst (process_faces E fs kf sn file r date p w)).
Proof.
  intros Hans. induction fs as [|f fs IH]; intros w; simpl; [exact I|].
  unfold bind at 1. unfold process_face. unfold bind at 1.
  destruct (match_face (face_embedding f) kf sn) as [name|e] eqn:Hmatch; simpl.
  - unfold bind at 1. simpl.
    destruct (negb (String.eqb name "Unknown")).
    + match goal with |- context [mark_attendance ?a ?b ?c ?d ?e ?f ?g] =>
        pose proof (mark_attendance_returns a b c d e f g Hans) as Hret;
        destruct (mark_attendance a b c d e f g) as [o w1] end.
      simpl in Hret. subst o. apply IH.
    + simpl. apply IH.
  - eapply match_face_raises; eauto.
Qed.

Lemma process_frame_returns E fr kf sn file r date p w :
  answering E ->
  preprocessed fr = Ok tt ->
  represented fr <> Raise KeyboardInterrupt ->
  fst (process_frame E fr kf sn file r date p w) = Returns tt.
Proof.
  intros Hans Hpre Hrep. unfold process_frame. rewrite Hpre. simpl.
  unfold bind at 1. simpl. unfold try_except, bind at 1.
  destruct (represented fr) as [fs|e]; simpl.
  - pose proof (process_faces_outcome E fs kf sn file r date p Hans w) as H.
    destruct (process_faces E fs kf sn file r date p w) as [[[]|e| |] w1];
      simpl in H; try contradiction; [reflexivity|].
    now rewrite H.
  - destruct e; simpl; try reflexivity. congruence.
Qed.

End Frames.

(** ** The capture cycle controller *)

Module Controller.
Import Numpy Py Attendance Effects Ledger Frames Spec.

Lemma periods_app (t1 t2 : list event) :
  periods (t1 ++ t2) = (periods t1 ++ periods t2)%list.
Proof.
  induction t1 as [|e t1 IH]; simpl; auto. destruct e; simpl; now rewrite ?IH.
Qed.

Lemma periods_draws (ds : list event) :
  forallb is_drawn ds = true -> periods ds = [].
Proof.
  induction ds as [|e ds IH]; simpl; auto.
  destruct e; simpl; try discriminate. exact IH.
Qed.

Lemma capture_app (t1 t2 : list event) :
  forall h, capture h (t1 ++ t2) =
            match capture h t1 with
            | Some h' => capture h' t2
            | None => None
            end.
Proof.
  induction t1 as [|e t1 IH]; intros h; simpl; auto.
  destruct e, h; simpl; auto.
Qed.

Lemma capture_draws (ds : list event) :
  forallb is_drawn ds = true -> forall h, capture h ds = Some h.
Proof.
  induction ds as [|e ds IH]; simpl; auto.
  destruct e; simpl; try discriminate. exact IH.
Qed.

(** The inner loop and its [finally]: drawings, then the release whenever
    the statement is left at all. *)
Lemma capture_loop_trace E a kf sn file r date p w :
  exists ds,
    forallb is_drawn ds = true /\
    trace (snd (capture_loop E a kf sn file r date p w)) =
      (trace w ++ ds ++
       if exits (fst (capture_loop E a kf sn file r date p w))
       then [CapRelease] else [])%list.
Proof.
  destruct (draws_only_active E (ticks a) (start_time a) kf sn file r date p w)
    as (ds & Htr & Hds).
  exists ds. split; [exact Hds|].
  unfold capture_loop, try_finally, try_except_interrupt.
  destruct (active E (ticks a) (start_time a) kf sn file r date p w)
    as [[x|e| |] w1]; simpl in *.
  - now rewrite Htr, app_assoc.
  - destruct e; simpl; now rewrite Htr, app_assoc.
  - now rewrite Htr, app_nil_r.
  - now rewrite Htr, app_nil_r.
Qed.

(** *** One turn of the outer loop, step by step *)

Lemma cycles_done E script kf sn file date p c w :
  (6 < p)%Z -> cycles E script kf sn file date p c w = (Returns tt, w).
Proof.
  intros Hp. destruct script; simpl;
    now replace (p <=? 6)%Z with false by (symmetry; apply Z.leb_gt; lia).
Qed.

Lemma cycles_step E a script kf sn file date p c w :
  (p <= 6)%Z ->
  cycles E (a :: script) kf sn file date p c w =
    if negb (opened a)
    then cycles E script kf sn file date p (c + 1) (backed_off (started a p c w))
    else
      match capture_loop E a kf sn file (fresh (dom (heap w))) date p
              (running (started a p c w)) with
      | (Returns Break, w') =>
          cycles E script kf sn file date (p + 1) (c + 1) (advanced p c w')
      | (Returns Return, w') => (Returns tt, w')
      | (Raises e, w') => (Raises e, w')
      | (Blocks, w') => (Blocks, w')
      | (Unfinished, w') => (Unfinished, w')
      end.
Proof.
  intros Hp. simpl. replace (p <=? 6)%Z with true by (symmetry; apply Z.leb_le; lia).
  unfold bind at 1. simpl. unfold bind at 1. simpl.
  unfold bind at 1. simpl. unfold bind at 1. simpl.
  unfold running, backed_off, started. simpl.
  destruct (opened a); simpl.
  - unfold bind at 1. simpl. unfold bind at 1.
    destruct (capture_loop _ _ _ _ _ _ _ _ _) as [[[|]|e| |] w']; try reflexivity.
    unfold bind, advanced. simpl. destruct (p + 1 <=? 6)%Z; reflexivity.
  - unfold bind. simpl. reflexivity.
Qed.

(** *** The capture handle *)

Lemma cycles_released E script :
  forall kf sn file date p c w,
    released w (cycles E script kf sn file date p c w).
Proof.
  induction script as [|a script IH]; intros kf sn file date p c w.
  - exists [], false. rewrite app_nil_r. simpl.
    destruct (p <=? 6)%Z; auto.
  - destruct (Z.le_gt_cases p 6) as [Hp | Hp];
      [|rewrite cycles_done by lia; exists [], false; rewrite app_nil_r; auto].
    rewrite cycles_step by assumption.
    destruct (opened a) eqn:Hopen; simpl.
    + destruct (capture_loop_trace E a kf sn file (fresh (dom (heap w))) date p
                  (running (started a p c w))) as (ds & Hds & Htr).
      destruct (capture_loop _ _ _ _ _ _ _ _ _) as [[[|]|e| |] w']; simpl in Htr.
      * destruct (IH kf sn file date (p + 1)%Z (c + 1)%Z (advanced p c w'))
          as (tr & h & Htr' & Hcap & Hexit).
        exists ([Cycle (c + 1) p; CapOpen true] ++ ds ++ [CapRelease; Sleep 10] ++ tr)%list, h.
        split; [|split; [|exact Hexit]].
        -- rewrite Htr'. simpl. rewrite Htr, Hopen.
           now rewrite <- !app_assoc.
        -- simpl. rewrite capture_app, (capture_draws ds Hds). exact Hcap.
      * exists ([Cycle (c + 1) p; CapOpen true] ++ ds ++ [CapRelease])%list, false.
        split; [|split; [|auto]].
        -- simpl. rewrite Htr, Hopen. now rewrite <- !app_assoc.
        -- simpl. now rewrite capture_app, (capture_draws ds Hds).
      * exists ([Cycle (c + 1) p; CapOpen true] ++ ds ++ [CapRelease])%list, false.
        split; [|split; [|auto]].
        -- simpl. rewrite Htr, Hopen. now rewrite <- !app_assoc.
        -- simpl. now rewrite capture_app, (capture_draws ds Hds).
      * exists ([Cycle (c + 1) p; CapOpen true] ++ ds)%list, true.
        split; [|split; [|discriminate]].
        -- simpl. rewrite Htr, Hopen. now rewrite app_nil_r, <- !app_assoc.
        -- simpl. now rewrite (capture_draws ds Hds).
      * exists ([Cycle (c + 1) p; CapOpen true] ++ ds)%list, true.
        split; [|split; [|discriminate]].
        -- simpl. rewrite Htr, Hopen. now rewrite app_nil_r, <- !app_assoc.
        -- simpl. now rewrite (capture_draws ds Hds).
    + destruct (IH kf sn file date p (c + 1)%Z (backed_off (started a p c w)))
        as (tr & h & Htr' & Hcap & Hexit).
      exists ([Cycle (c + 1) p; CapOpen false; Sleep 60] ++ tr)%list, h.
      split; [|split; [exact Hcap | exact Hexit]].
      rewrite Htr'. simpl. rewrite Hopen. now rewrite <- !app_assoc.
Qed.

(** *** [main], step by step *)

Lemma main_eq E script w :
  main E script w =
    match load_known_faces E DATASET_PATH w with
    | (Returns ([], _), w1) => logging ERROR "No known faces loaded. Exiting." w1
    | (Returns (kf, sn), w1) =>
        wound_up (cycles E script kf sn (attendance_file_of E) (today E) 1 0
                    (announced E w1))
    | (Raises e, w1) => (Raises e, w1)
    | (Blocks, w1) => (Blocks, w1)
    | (Unfinished, w1) => (Unfinished, w1)
    end.
Proof.
  unfold main. unfold bind at 1.
  destruct (load_known_faces E DATASET_PATH w) as [[[[|k kf] sn]|e| |] w1];
    try reflexivity.
  unfold announced, attendance_file_of, initialize_attendance, path_exists,
    try_finally, try_except, wound_up, closed, bind, logging, write_file, ret.
  simpl. set (af := "attendance_" ++ today E ++ ".csv").
  destruct (bool_decide (is_Some (files w1 !! af))); simpl;
    match goal with |- context [cycles ?x1 ?x2 ?x3 ?x4 ?x5 ?x6 ?x7 ?x8 ?x9] =>
      destruct (cycles x1 x2 x3 x4 x5 x6 x7 x8 x9) as [[[]|ex| |] w2] end;
    try reflexivity; destruct (is_Exception ex); reflexivity.
Qed.

Lemma trace_announced E w : trace (announced E w) = trace w.
Proof.
  unfold announced, initialize_attendance, bind, path_exists. simpl.
  now destruct (bool_decide _).
Qed.

Lemma only_log_load_file f kf sn : preserves only_log (load_file f kf sn).
Proof.
  unfold load_file. destruct (endswith_any _ _); [|apply preserves_ret; typeclasses eauto].
  apply preserves_try_except; [typeclasses eauto | |].
  - apply preserves_bind; [typeclasses eauto | apply preserves_lift; typeclasses eauto |].
    intros [|r rs];
      (apply preserves_bind; [typeclasses eauto | apply only_log_logging |]);
      intros _; apply preserves_ret; typeclasses eauto.
  - intros e. apply preserves_bind; [typeclasses eauto | apply only_log_logging |].
    intros _; apply preserves_ret; typeclasses eauto.
Qed.

Lemma only_log_load_files fs :
  forall kf sn, preserves only_log (load_files fs kf sn).
Proof.
  induction fs as [|f fs IH]; intros kf sn; simpl.
  - apply preserves_ret; typeclasses eauto.
  - apply preserves_bind; [typeclasses eauto | apply only_log_load_file |].
    intros [kf' sn']. apply IH.
Qed.

Lemma only_log_load_known_faces E path : preserves only_log (load_known_faces E path).
Proof.
  unfold load_known_faces. destruct (listdir E path) as [fs|].
  - apply preserves_bind; [typeclasses eauto | apply only_log_load_files |].
    intros [kf sn]. apply preserves_bind; [typeclasses eauto | apply only_log_logging |].
    intros _; apply preserves_ret; typeclasses eauto.
  - apply preserves_bind; [typeclasses eauto | apply only_log_logging |].
    intros _; apply preserves_ret; typeclasses eauto.
Qed.

(** C7. Whatever the camera, the keyboard, the clock and the network do:
    along the whole run the program never sleeps, starts a turn or opens
    a capture while it holds one, and when the process is over, by
    return or by exception, no capture is held.  (A capture that opened
    is held until [CapRelease]; the inner loop is left by timeout, by a
    failed read, by the q key, by Ctrl-C or by an exception.) *)
Theorem capture_released_on_every_exit E script w :
  exists tr h,
    trace (snd (main E script w)) = (trace w ++ tr)%list /\
    capture false tr = Some h /\
    (exits (fst (main E script w)) = true -> h = false).
Proof.
  rewrite main_eq.
  pose proof (only_log_load_known_faces E DATASET_PATH w) as (_ & _ & Htr & _).
  destruct (load_known_faces E DATASET_PATH w) as [[[[|k kf] sn]|e| |] w1];
    simpl in Htr;
    try (exists [], false; rewrite app_nil_r; simpl; auto; fail).
  destruct (cycles_released E script (k :: kf) sn (attendance_file_of E) (today E)
              1 0 (announced E w1)) as (tr & h & Htr' & Hcap & Hexit).
  rewrite trace_announced, Htr in Htr'.
  exists tr, h. split; [|split; [exact Hcap|]];
    destruct (cycles _ _ _ _ _ _ _ _ _) as [[[]|e| |] w2]; simpl in *;
    try destruct (is_Exception e); simpl; auto.
Qed.

(** C8. A dataset path that does not exist makes [load_known_faces]
    return two empty lists, with nothing but a log line done; and when the
    loaded gallery is empty, [main] logs the error and returns at once:
    no turn of the loop, no capture, no attendance file, no request,
    whatever the script holds. *)
Theorem empty_gallery_aborts E script w :
  (forall path, listdir E path = None ->
     exists w1, load_known_faces E path w = (Returns ([], []), w1) /\ only_log w w1) /\
  (forall sn w1,
     load_known_faces E DATASET_PATH w = (Returns ([], sn), w1) ->
     exists w2,
       main E script w = (Returns tt, w2) /\
       trace w2 = trace w /\ files w2 = files w /\
       posts w2 = posts w /\ heap w2 = heap w /\
       last (log w2) = Some (ERROR, "No known faces loaded. Exiting.")).
Proof.
  split.
  - intros path Hdir. unfold load_known_faces. rewrite Hdir.
    eexists. split; [reflexivity | apply only_log_logging].
  - intros sn w1 Hload.
    pose proof (only_log_load_known_faces E DATASET_PATH w) as Hlog.
    rewrite main_eq. rewrite Hload in *. simpl in Hlog.
    destruct Hlog as (Hf & Hp & Ht & Hh).
    eexists. split; [reflexivity|]. simpl.
    repeat split; auto. apply last_snoc.
Qed.

(** *** A run without failures *)

Lemma active_clean E start kf sn file r date p (pre : list tick) t post :
  answering E ->
  Forall clean_tick pre -> clean_tick t ->
  Forall (fun t' => timed_out start t' = false) pre ->
  timed_out start t = true ->
  forall w, fst (active E (pre ++ t :: post) start kf sn file r date p w) = Returns Break.
Proof.
  intros Hans Hpre Ht Hnot Hout.
  assert (Hstep : forall fr k clock ts w,
            clean_tick (Read fr (Ok k) clock) ->
            active E (Read fr (Ok k) clock :: ts) start kf sn file r date p w =
              if PrimFloat.ltb 60 (PrimFloat.sub clock start)
              then (Returns Break, snd (process_frame E fr kf sn file r date p w))
              else active E ts start kf sn file r date p
                     (snd (process_frame E fr kf sn file r date p w))).
  { intros fr k clock ts w (Hp & Hr & Hk). simpl. unfold bind at 1.
    pose proof (process_frame_returns E fr kf sn file r date p w Hans Hp Hr) as Hret.
    destruct (process_frame E fr kf sn file r date p w) as [o w1].
    simpl in Hret. subst o. simpl. unfold bind at 1. simpl.
    replace (Z.land k 255 =? ord_q)%Z with false by (symmetry; now apply Z.eqb_neq).
    now destruct (PrimFloat.ltb 60 (PrimFloat.sub clock start)). }
  induction Hpre as [|t' pre Ht' Hpre IH]; intros w; simpl app.
  - destruct t as [| |fr [k|] clock]; try contradiction.
    rewrite Hstep by assumption. simpl in Hout. now rewrite Hout.
  - inversion Hnot as [|? ? Hnot' Hnot'']; subst.
    destruct t' as [| |fr [k|] clock]; try contradiction.
    rewrite Hstep by assumption. simpl in Hnot'. rewrite Hnot'.
    now apply IH.
Qed.

Lemma capture_loop_clean E a kf sn file r date p w :
  answering E -> clean_attempt a ->
  fst (capture_loop E a kf sn file r date p w) = Returns Break.
Proof.
  intros Hans (_ & pre & t & post & Hticks & Hpre & Ht & Hnot & Hout).
  pose proof (active_clean E (start_time a) kf sn file r date p pre t post
                Hans Hpre Ht Hnot Hout w) as Hact.
  unfold capture_loop, try_finally, try_except_interrupt. rewrite Hticks.
  destruct (active _ _ _ _ _ _ _ _ _ _) as [o w1]. simpl in Hact. now subst o.
Qed.

Lemma cycles_clean E script :
  answering E ->
  forall kf sn file date p c w,
    (Z.to_nat (7 - p) <= length script)%nat ->
    Forall clean_attempt (take (Z.to_nat (7 - p)) script) ->
    exists w',
      cycles E script kf sn file date p c w = (Returns tt, w') /\
      periods (trace w') = (periods (trace w) ++ seqZ p (7 - p))%list.
Proof.
  intros Hans. induction script as [|a script IH]; intros kf sn file date p c w Hlen Hclean.
  - simpl in Hlen. exists w. rewrite cycles_done by lia.
    split; [reflexivity|]. rewrite seqZ_nil by lia. now rewrite app_nil_r.
  - destruct (Z.le_gt_cases p 6) as [Hp | Hp].
    + replace (Z.to_nat (7 - p)) with (S (Z.to_nat (7 - (p + 1)))) in * by lia.
      simpl in Hlen, Hclean. inversion Hclean as [|? ? Ha Hrest]; subst.
      rewrite cycles_step by assumption.
      destruct Ha as (Hopen & Hticks). rewrite Hopen. simpl.
      pose proof (capture_loop_clean E a kf sn file (fresh (dom (heap w))) date p
                    (running (started a p c w)) Hans (conj Hopen Hticks)) as Hloop.
      destruct (capture_loop_trace E a kf sn file (fresh (dom (heap w))) date p
                  (running (started a p c w))) as (ds & Hds & Htr).
      destruct (capture_loop _ _ _ _ _ _ _ _ _) as [o w1]. simpl in Hloop, Htr. subst o.
      destruct (IH kf sn file date (p + 1)%Z (c + 1)%Z (advanced p c w1))
        as (w' & Hrun & Hper); [lia | exact Hrest |].
      exists w'. split; [exact Hrun|].
      rewrite Hper. simpl. rewrite Htr. simpl.
      rewrite !periods_app, (periods_draws ds Hds). simpl.
      rewrite (seqZ_cons p (7 - p)) by lia.
      replace (Z.succ p) with (p + 1)%Z by lia.
      replace (Z.pred (7 - p)) with (7 - (p + 1))%Z by lia.
      now rewrite <- !app_assoc.
    + exists w. rewrite cycles_done by lia.
      split; [reflexivity|]. rewrite seqZ_nil by lia. now rewrite app_nil_r.
Qed.

(** C6, as the code has it.  When the gallery loads and is not empty, the
    remote end answers every request (with a response or a failure), and
    each of the first six turns of the script opens the capture and
    runs clean inner turns until the minute is over, [main] returns and
    the periods it went through are 1, 2, 3, 4, 5, 6, once each and in
    this order. *)
Theorem six_periods_in_order E script w :
  uninterrupted_listing E DATASET_PATH ->
  gallery E DATASET_PATH <> [] ->
  answering E ->
  (6 <= length script)%nat ->
  Forall clean_attempt (take 6 script) ->
  exists w',
    main E script w = (Returns tt, w') /\
    periods (trace w') = (periods (trace w) ++ [1; 2; 3; 4; 5; 6]%Z)%list.
Proof.
  intros Hfs Hgal Hans Hlen Hclean.
  destruct (Loader.load_known_faces_spec E DATASET_PATH w Hfs) as (w1 & Hload & Hlog).
  rewrite main_eq, Hload.
  destruct (gallery E DATASET_PATH) as [|[e n] g] eqn:Hg; [congruence|]. simpl.
  match goal with |- context [cycles E script ?kf ?sn] =>
    destruct (cycles_clean E script Hans kf sn
                (attendance_file_of E) (today E) 1 0 (announced E w1))
      as (w2 & Hrun & Hper); [exact Hlen | exact Hclean |]
  end.
  rewrite Hrun. simpl. eexists. split; [reflexivity|].
  simpl. rewrite Hper, trace_announced.
  destruct Hlog as (_ & _ & -> & _). reflexivity.
Qed.

(** *** The same student in two periods *)

Lemma process_frame_shows E fr kf sn file r date p w roll :
  answering E -> shows fr kf sn roll -> roll ∉ contents w r ->
  exists w',
    process_frame E fr kf sn file r date p w = (Returns tt, w') /\
    files w' !! file =
      Some (default [] (files w !! file)
            ++ [csv_row roll date (time_str_at E (length (posts w))) p])%list /\
    posts w' = (posts w ++ [the_request E roll date p w])%list.
Proof.
  intros Hans (Hpre & Hroll & f & Hrep & Hmatch) Hnot.
  unfold process_frame. rewrite Hpre, Hrep. simpl.
  unfold bind at 1. simpl. unfold try_except. unfold bind at 1. simpl.
  unfold bind at 1. unfold process_face. rewrite Hmatch. simpl.
  unfold bind at 1. simpl. unfold bind at 1. simpl.
  replace (String.eqb roll "Unknown") with false
    by (symmetry; now apply String.eqb_neq).
  simpl. rewrite mark_attendance_new by exact Hnot.
  match goal with |- context [the_reply ?a ?b ?c ?d ?w0] =>
    pose proof (Hans (length (posts w0)) (the_request a b c d w0)) as Hr;
    fold (the_reply a b c d w0) in Hr;
    destruct (the_reply a b c d w0) eqn:Hreply; try congruence
  end; simpl.
  - eexists. split; [reflexivity|].
    split; [rewrite files_marked; reflexivity | reflexivity].
  - eexists. split; [reflexivity|].
    split; [rewrite files_marked; reflexivity | reflexivity].
Qed.

Lemma turn_marks E a script kf sn file date p c w fr roll :
  (p <= 6)%Z -> answering E -> glimpse a fr -> shows fr kf sn roll ->
  exists w1,
    cycles E (a :: script) kf sn file date p c w =
      cycles E script kf sn file date (p + 1) (c + 1) w1 /\
    files w1 !! file =
      Some (default [] (files w !! file)
            ++ [csv_row roll date (time_str_at E (length (posts w))) p])%list /\
    posts w1 = (posts w ++ [the_request E roll date p w])%list.
Proof.
  intros Hp Hans (Hopen & k & clock & rest & Hticks & Hk & Hout) Hshows.
  rewrite cycles_step by assumption. rewrite Hopen. simpl.
  set (r := fresh (dom (heap w))).
  set (w0 := running (started a p c w)).
  assert (Hnot : roll ∉ contents w0 r).
  { unfold contents, w0, r. simpl. rewrite lookup_insert_eq. simpl. set_solver. }
  destruct (process_frame_shows E fr kf sn file r date p w0 roll Hans Hshows Hnot)
    as (w' & Hrun & Hfiles & Hposts).
  unfold capture_loop, try_finally, try_except_interrupt. rewrite Hticks. simpl.
  unfold bind at 1. rewrite Hrun. simpl. unfold bind at 1. simpl.
  replace (Z.land k 255 =? ord_q)%Z with false by (symmetry; now apply Z.eqb_neq).
  rewrite Hout. simpl.
  eexists. split; [reflexivity|]. simpl. split; [exact Hfiles | exact Hposts].
Qed.

(** C3. The set a turn of the loop works with is new and empty: it is no
    set of the heap before the turn, whatever those hold.  So when two
    consecutive turns each see the same student, each appends a row for
    its own period: after them the run goes on with both rows in the
    file, one for period [p], one for period [p + 1]. *)
Theorem marks_do_not_cross_periods E a1 a2 script kf sn file date p c w fr1 fr2 roll :
  (p + 1 <= 6)%Z ->
  answering E ->
  glimpse a1 fr1 -> shows fr1 kf sn roll ->
  glimpse a2 fr2 -> shows fr2 kf sn roll ->
  (forall a p c w,
     heap w !! fresh (dom (heap w)) = None /\
     contents (running (started a p c w)) (fresh (dom (heap w))) = ∅) /\
  exists w2,
    cycles E (a1 :: a2 :: script) kf sn file date p c w =
      cycles E script kf sn file date (p + 2) (c + 2) w2 /\
    files w2 !! file =
      Some (default [] (files w !! file)
            ++ [csv_row roll date (time_str_at E (length (posts w))) p;
                csv_row roll date (time_str_at E (S (length (posts w)))) (p + 1)])%list.
Proof.
  intros Hp Hans Hg1 Hs1 Hg2 Hs2. split.
  - intros a p0 c0 w0. split.
    + apply not_elem_of_dom. apply is_fresh.
    + unfold contents. simpl. now rewrite lookup_insert_eq.
  - destruct (turn_marks E a1 (a2 :: script) kf sn file date p c w fr1 roll)
      as (w1 & Hrun1 & Hfiles1 & Hposts1); auto; [lia|].
    destruct (turn_marks E a2 script kf sn file date (p + 1) (c + 1) w1 fr2 roll)
      as (w2 & Hrun2 & Hfiles2 & _); auto.
    exists w2. split.
    + rewrite Hrun1, Hrun2. f_equal; lia.
    + rewrite Hfiles2, Hfiles1, Hposts1. simpl.
      rewrite length_app, Nat.add_1_r. now rewrite <- app_assoc.
Qed.

End Controller.

(** * The theorems at work in the classroom *)

Module Classroom.
Import Numpy Py Attendance Scenario Effects Ledger Frames Controller Spec.

(** Alice's probe against the gallery of bob and alice. *)
Lemma match_face_selects_minimum_witness :
  exists (ds : list float) (d0 : float) (i : nat) (d : float) (name : string),
    Forall2 (fun known dk => cosine_distance f64 alice_face known = Ok dk) known_faces ds /\
    ds !! 0%nat = Some d0 /\
    ds !! i = Some d /\
    student_names !! i = Some name /\
    (forall j dj, (j < i)%nat -> ds !! j = Some dj -> PrimFloat.eqb dj d = false) /\
    match_face alice_face known_faces student_names =
      Ok (if PrimFloat.ltb d DISTANCE_THRESHOLD then name else "Unknown") /\
    (is_number d0 = true ->
     is_number d = true /\
     forall j dj, ds !! j = Some dj -> is_number dj = true -> PrimFloat.leb d dj = true) /\
    (is_number d0 = false ->
     i = 0%nat /\ match_face alice_face known_faces student_names = Ok "Unknown").
Proof.
  apply (Matcher.match_face_selects_minimum alice_face known_faces student_names).
  - discriminate.
  - reflexivity.
  - repeat constructor.
Defined.

(** C1 as stated fails.  The first entry of the gallery has norm zero,
    so its distance to the probe is a NaN; the second entry is the probe
    itself, at distance 0, below the threshold.  [min] keeps the NaN and
    the answer is "Unknown", not "alice". *)
Lemma zero_norm_entry_hides_the_match :
  cosine_distance f64 alice_face [0%float; 0%float] = Ok nan /\
  cosine_distance f64 alice_face alice_face = Ok 0%float /\
  PrimFloat.ltb 0 DISTANCE_THRESHOLD = true /\
  match_face alice_face [[0%float; 0%float]; alice_face] ["nobody"; "alice"]
    = Ok "Unknown".
Proof. vm_compute. repeat split. Qed.

(** Alice marked once already, and alice marked three times in a row. *)
Lemma mark_attendance_idempotent_witness :
  mark_attendance accepting "alice" "2024-01-01" csv_today 0 1 alice_marked =
    (Returns tt, alice_marked) /\
  (let w' := snd (mark_times 3 accepting "alice" "2024-01-01" csv_today 0 1 empty_world) in
   files w' !! csv_today =
     Some (default [] (files empty_world !! csv_today)
           ++ [csv_row "alice" "2024-01-01"
                 (time_str_at accepting (length (posts empty_world))) 1])%list /\
   posts w' = (posts empty_world
               ++ [the_request accepting "alice" "2024-01-01" 1 empty_world])%list /\
   "alice" ∈ contents w' 0).
Proof.
  split.
  - apply (proj1 (mark_attendance_idempotent accepting "alice" "2024-01-01"
                    csv_today 0 1 alice_marked)).
    apply (bool_decide_unpack _). vm_compute. exact I.
  - apply (proj2 (mark_attendance_idempotent accepting "alice" "2024-01-01"
                    csv_today 0 1 empty_world)).
    apply (bool_decide_unpack _). vm_compute. exact I.
Defined.

(** Alice in period 1 and again in period 2. *)
Lemma marks_do_not_cross_periods_witness :
  exists w2,
    cycles accepting [glimpse_of_alice; glimpse_of_alice] known_faces student_names
      csv_today "2024-01-01" 1 0 empty_world =
      cycles accepting [] known_faces student_names csv_today "2024-01-01"
        (1 + 2) (0 + 2) w2 /\
    files w2 !! csv_today =
      Some (default [] (files empty_world !! csv_today)
            ++ [csv_row "alice" "2024-01-01"
                  (time_str_at accepting (length (posts empty_world))) 1;
                csv_row "alice" "2024-01-01"
                  (time_str_at accepting (S (length (posts empty_world)))) (1 + 1)])%list.
Proof.
  assert (Hg : glimpse glimpse_of_alice alice_frame).
  { split; [reflexivity|]. exists (-1)%Z, 61%float, [].
    split; [reflexivity|]. split; [vm_compute; discriminate | reflexivity]. }
  assert (Hs : shows alice_frame known_faces student_names "alice").
  { split; [reflexivity|]. split; [discriminate|].
    eexists. split; reflexivity. }
  apply (proj2 (marks_do_not_cross_periods accepting glimpse_of_alice glimpse_of_alice
                  [] known_faces student_names csv_today "2024-01-01" 1 0 empty_world
                  alice_frame alice_frame "alice"
                  ltac:(lia) ltac:(intros k req; discriminate) Hg Hs Hg Hs)).
Defined.

(** The remote end answers 500 to alice's mark. *)
Lemma remote_failure_keeps_local_record_witness :
  exists w',
    mark_attendance refusing "alice" "2024-01-01" csv_today 0 1 empty_world =
      (Returns tt, w') /\
    files w' !! csv_today =
      Some (default [] (files empty_world !! csv_today)
            ++ [csv_row "alice" "2024-01-01"
                  (time_str_at refusing (length (posts empty_world))) 1])%list /\
    "alice" ∈ contents w' 0 /\
    posts w' = (posts empty_world
                ++ [the_request refusing "alice" "2024-01-01" 1 empty_world])%list /\
    mark_attendance refusing "alice" "2024-01-01" csv_today 0 1 w' = (Returns tt, w') /\
    forall other p',
      other ∉ contents w' 0 ->
      let w'' := snd (mark_attendance refusing other "2024-01-01" csv_today 0 p' w') in
      files w'' !! csv_today =
        Some (default [] (files empty_world !! csv_today)
              ++ [csv_row "alice" "2024-01-01"
                    (time_str_at refusing (length (posts empty_world))) 1;
                  csv_row other "2024-01-01"
                    (time_str_at refusing (S (length (posts empty_world)))) p'])%list /\
      other ∈ contents w'' 0 /\
      posts w'' = (posts w' ++ [the_request refusing other "2024-01-01" p' w'])%list.
Proof.
  apply (remote_failure_keeps_local_record refusing "alice" "2024-01-01" csv_today
           0 1 empty_world).
  - apply (bool_decide_unpack _). vm_compute. exact I.
  - vm_compute. discriminate.
Defined.



(** Six periods with alice in front of the camera. *)
Lemma six_periods_in_order_witness :
  exists w',
    main accepting six_periods empty_world = (Returns tt, w') /\
    periods (trace w') = (periods (trace empty_world) ++ [1; 2; 3; 4; 5; 6]%Z)%list.
Proof.
  apply (six_periods_in_order accepting six_periods empty_world).
  - intros fs Hfs. vm_compute in Hfs. injection Hfs as <-.
    repeat constructor; discriminate.
  - vm_compute. discriminate.
  - intros k req. discriminate.
  - vm_compute. lia.
  - assert (Hc : clean_attempt period_with_alice).
    { split; [reflexivity|].
      exists [Read alice_frame (Ok (-1)%Z) 1%float],
             (Read alice_frame (Ok (-1)%Z) 61%float), [].
      split; [reflexivity|].
      assert (Ht : forall clock, clean_tick (Read alice_frame (Ok (-1)%Z) clock)).
      { intros clock. split; [reflexivity|].
        split; [discriminate | vm_compute; discriminate]. }
      split; [constructor; [apply Ht | constructor]|]. split; [apply Ht|].
      split; [repeat constructor | reflexivity]. }
    simpl. repeat (constructor; [exact Hc|]). constructor.
Defined.

(** C6 as stated fails.  Every capture opens, every frame is read,
    nothing raises and no key is pressed, in each of the six turns; but
    the remote end says nothing, so the first mark of period 1 never
    returns and periods 2 to 6 are never entered. *)
Lemma silent_remote_stops_at_period_one :
  uninterrupted_listing silent DATASET_PATH /\
  gallery silent DATASET_PATH <> [] /\
  length six_periods = 6%nat /\
  Forall clean_attempt six_periods /\
  fst (main silent six_periods empty_world) = Blocks /\
  periods (trace (snd (main silent six_periods empty_world))) = [1%Z].
Proof.
  split.
  { intros fs Hfs. vm_compute in Hfs. injection Hfs as <-.
    repeat constructor; discriminate. }
  split; [vm_compute; discriminate|]. split; [reflexivity|]. split.
  { assert (Hc : clean_attempt period_with_alice).
    { split; [reflexivity|].
      exists [Read alice_frame (Ok (-1)%Z) 1%float],
             (Read alice_frame (Ok (-1)%Z) 61%float), [].
      split; [reflexivity|].
      assert (Ht : forall clock, clean_tick (Read alice_frame (Ok (-1)%Z) clock)).
      { intros clock. split; [reflexivity|].
        split; [discriminate | vm_compute; discriminate]. }
      split; [constructor; [apply Ht | constructor]|]. split; [apply Ht|].
      split; [repeat constructor | reflexivity]. }
    unfold six_periods. simpl. repeat (constructor; [exact Hc|]). constructor. }
  vm_compute. split; reflexivity.
Qed.

(** No dataset directory: the run is over before it starts. *)
Lemma empty_gallery_aborts_witness :
  exists w2,
    main nowhere six_periods empty_world = (Returns tt, w2) /\
    trace w2 = trace empty_world /\ files w2 = files empty_world /\
    posts w2 = posts empty_world /\ heap w2 = heap empty_world /\
    last (log w2) = Some (ERROR, "No known faces loaded. Exiting.").
Proof.
  eapply (proj2 (empty_gallery_aborts nowhere six_periods empty_world)).
  reflexivity.
Defined.

(** C9 as stated fails.  The request carries no timeout, and when the
    remote end says nothing the run stops inside the first mark of period
    1: the call never returns, the second frame is never read, the
    capture stays open. *)
Lemma silent_remote_blocks_the_run :
  timeout (attendance_request "alice" "2024-01-01" "09:00:00" 1) = None /\
  fst (main silent six_periods empty_world) = Blocks /\
  trace (snd (main silent six_periods empty_world)) =
    [Cycle 1 1; CapOpen true; Drawn 20 40 80 120 "alice"] /\
  length (posts (snd (main silent six_periods empty_world))) = 1%nat.
Proof. vm_compute. repeat split. Qed.

(** Alice's first mark with a silent remote end. *)
Lemma forwarding_has_no_timeout_witness :
  timeout (the_request silent "alice" "2024-01-01" 1 empty_world) = None /\
  fst (mark_attendance silent "alice" "2024-01-01" csv_today 0 1 empty_world) = Blocks.
Proof.
  apply (forwarding_has_no_timeout silent "alice" "2024-01-01" csv_today 0 1 empty_world).
  apply (bool_decide_unpack _). vm_compute. exact I.
Defined.

(** The dataset of the classroom, and alice's probe. *)
Lemma gallery_lists_aligned_witness :
  exists (kf : list embedding) (sn : list string) (w' : world),
    load_known_faces accepting DATASET_PATH empty_world = (Returns (kf, sn), w') /\
    length kf = length sn /\
    zip kf sn = gallery accepting DATASET_PATH /\
    forall probe : embedding,
      kf <> [] ->
      Forall (fun known => length known = length probe) kf ->
      exists (i : nat) (e : embedding) (name : string) (d : float),
        kf !! i = Some e /\
        sn !! i = Some name /\
        gallery accepting DATASET_PATH !! i = Some (e, name) /\
        cosine_distance f64 probe e = Ok d /\
        (forall e' d', e' ∈ kf -> cosine_distance f64 probe e' = Ok d' ->
                       PrimFloat.ltb d' d = false) /\
        match_face probe kf sn =
          Ok (if PrimFloat.ltb d DISTANCE_THRESHOLD then name else "Unknown").
Proof.
  apply (Loader.gallery_lists_aligned accepting DATASET_PATH empty_world).
  intros fs Hfs. vm_compute in Hfs. injection Hfs as <-.
  repeat constructor; discriminate.
Defined.

(** The matcher on small galleries: the nearest name, "Unknown" at
    distance 1, and a zero vector in front (its distance is a NaN, which
    [min] keeps and the threshold rejects). *)
Example match_face_examples :
  match_face alice_face known_faces student_names = Ok "alice" /\
  match_face alice_face [bob_face] ["bob"] = Ok "Unknown" /\
  match_face alice_face [[0%float; 0%float]; alice_face] ["nobody"; "alice"]
    = Ok "Unknown" /\
  match_face alice_face [] [] = Raise ValueError.
Proof. vm_compute. repeat split. Qed.

Example splitext_examples :
  splitext "alice.jpg" = ("alice", ".jpg") /\
  splitext "al.ice.jpeg" = ("al.ice", ".jpeg") /\
  splitext ".png" = (".png", "") /\
  endswith_any "notes.txt" image_suffixes = false.
Proof. vm_compute. repeat split. Qed.

(** The four other ways out of the inner loop, each in period 1: the q
    key, Ctrl-C, a failed read (the run goes on to period 2, where the
    script ends) and an exception outside [process_frame]'s [try]. *)
Example ways_out_of_the_inner_loop :
  let attempt_with t := {| opened := true; start_time := 0%float; ticks := [t] |} in
  let run t := main accepting [attempt_with t] empty_world in
  let broken := {| preprocessed := Raise (OtherError "cv2.error");
                   represented := Ok [] |} in
  (fst (run (Read alice_frame (Ok 113%Z) 1%float)) = Returns tt /\
   trace (snd (run (Read alice_frame (Ok 113%Z) 1%float))) =
     [Cycle 1 1; CapOpen true; Drawn 20 40 80 120 "alice"; CapRelease]) /\
  (fst (run (ReadRaised KeyboardInterrupt)) = Returns tt /\
   trace (snd (run (ReadRaised KeyboardInterrupt))) =
     [Cycle 1 1; CapOpen true; CapRelease]) /\
  (fst (run ReadFailed) = Unfinished /\
   trace (snd (run ReadFailed)) =
     [Cycle 1 1; CapOpen true; CapRelease; Sleep 10]) /\
  (fst (run (Read broken (Ok (-1)%Z) 1%float)) = Returns tt /\
   trace (snd (run (Read broken (Ok (-1)%Z) 1%float))) =
     [Cycle 1 1; CapOpen true; CapRelease]).
Proof. vm_compute. repeat split. Qed.

End Classroom.
